(** * CRM core: customers, products, orders and their filters

    A shallow embedding of [crm/schema.py] (the phone validator and the
    four mutations) and of [crm/filters.py] (the three filter sets),
    followed by the properties established about them.

    Conventions of the embedding.
    - Python [str] values are [string]s; a character is a code point below
      256, where the regular-expression class [\d] is exactly ['0'..'9'].
    - [None] is [None]; a nullable column or optional argument is an [option].
    - Primary keys are integers ([Z]).  A GraphQL [ID] arrives as a [str];
      the ORM converts it to a key before it queries, and the conversion
      raises [ValueError] on a string that names no number.  The conversion
      is a parameter, [to_key], with [None] where it raises.
    - [Decimal] columns ([price], [total_amount]) are fixed-point numbers of
      one common scale, kept as the integer count of their smallest unit, so
      that [+] on them is [Z.add].  A [Decimal] that is not yet stored (the
      price CreateProduct is given) is a rational number of such units;
      [save()] rounds it to the column, which is the parameter
      [column_value], with [None] where the value does not fit and [save()]
      raises.
    - A table is the list of its rows in insertion order; a queryset is the
      list of rows it yields.
    - [raise GraphQLError(msg)] is [Raise msg]; a mutation that returns
      normally yields [Ok] of the new store and its payload; a call that an
      exception other than [GraphQLError] leaves is [Uncaught]. *)

From Stdlib Require Import ZArith List String Ascii Bool Arith Lia Permutation.
From Stdlib Require QArith Qround.
Import ListNotations.

Set Implicit Arguments.

(* ================================================================== *)
(** * Part I. The embedding                                             *)
(* ================================================================== *)

(** ** Python's [re], as far as the phone pattern needs it *)

Module re.

(** The syntax the pattern [^\+?[1-9]\d{1,14}$] is built from. *)
Inductive pattern : Type :=
| Caret                                   (* ^        *)
| Dollar                                  (* $        *)
| Lit (c : ascii)                         (* \+       *)
| Range (lo hi : ascii)                   (* [1-9]    *)
| Digit                                   (* \d       *)
| Opt (p : pattern)                       (* p?       *)
| Repeat (p : pattern) (lo hi : nat)      (* p{lo,hi} *)
| Cat (p q : pattern).                    (* pq       *)

Definition LF : ascii := "010"%char.

Definition in_range (lo hi c : ascii) : bool :=
  ((nat_of_ascii lo <=? nat_of_ascii c) && (nat_of_ascii c <=? nat_of_ascii hi))%nat.

Definition is_digit (c : ascii) : bool := in_range "0" "9" c.

(** [$] without [re.MULTILINE]: the end of the string, or just before a
    newline that is the last character of the string. *)
Definition at_dollar (s : string) : bool :=
  match s with
  | EmptyString => true
  | String c EmptyString => Ascii.eqb c LF
  | String _ (String _ _) => false
  end.

(** A matcher is run at a position [pos] on the rest [s] of the subject and
    hands what is left to its continuation; backtracking is the [||]. *)
Definition cont : Type := nat -> string -> bool.
Definition matcher : Type := nat -> string -> cont -> bool.

Definition one (f : ascii -> bool) : matcher :=
  fun pos s k =>
    match s with
    | String c s' => f c && k (S pos) s'
    | EmptyString => false
    end.

Fixpoint exactly (m : matcher) (n : nat) : matcher :=
  fun pos s k =>
    match n with
    | O => k pos s
    | S n' => m pos s (fun pos' s' => exactly m n' pos' s' k)
    end.

(** Greedy: one more repetition is tried before stopping. *)
Fixpoint at_most (m : matcher) (n : nat) : matcher :=
  fun pos s k =>
    match n with
    | O => k pos s
    | S n' => m pos s (fun pos' s' => at_most m n' pos' s' k) || k pos s
    end.

Fixpoint run (p : pattern) : matcher :=
  match p with
  | Caret => fun pos s k => (pos =? 0)%nat && k pos s
  | Dollar => fun pos s k => at_dollar s && k pos s
  | Lit c => one (Ascii.eqb c)
  | Range lo hi => one (in_range lo hi)
  | Digit => one is_digit
  | Opt q => fun pos s k => run q pos s k || k pos s
  | Repeat q lo hi =>
      fun pos s k =>
        exactly (run q) lo pos s (fun pos' s' => at_most (run q) (hi - lo) pos' s' k)
  | Cat q r => fun pos s k => run q pos s (fun pos' s' => run r pos' s' k)
  end.

(** [pattern.match(s)] anchors at position 0 and accepts any match found
    there; [bool(...)] of the match object is whether there is one. *)
Definition match_ (p : pattern) (s : string) : bool :=
  run p 0%nat s (fun _ _ => true).

End re.

(** ** Validation *)

(** [[1-9]\d{1,14}$], the pattern after its optional sign. *)
Definition digits_pattern : re.pattern :=
  re.Cat (re.Range "1" "9") (re.Cat (re.Repeat re.Digit 1 14) re.Dollar).

(** [re.compile(r'^\+?[1-9]\d{1,14}$')] *)
Definition phone_pattern : re.pattern :=
  re.Cat re.Caret (re.Cat (re.Opt (re.Lit "+")) digits_pattern).

Definition is_valid_phone (phone : string) : bool :=
  re.match_ phone_pattern phone.

(** ** Models

    [crm/models.py] is not among the sources.  The three records carry the
    columns of spec section 3 that the mutations and the filters read or
    write, under the names the source uses for them. *)

Module Customer.
(** Modelled from the spec: the [Customer] model of [crm/models.py], with
    the columns [id], [name], [email] and the nullable [phone] of spec
    section 3 ([created_at], which only the customer filter reads, is left
    out). *)
Record t : Type := Build
  { id : Z; name : string; email : string; phone : option string }.
End Customer.

Module Product.
(** Modelled from the spec: the [Product] model of [crm/models.py], with
    the columns [id], [name], [price] (a decimal) and [stock] of spec
    section 3. *)
Record t : Type := Build
  { id : Z; name : string; price : Z; stock : Z }.
End Product.

Module Order.
(** Modelled from the spec: the [Order] model of [crm/models.py], with the
    columns of spec section 3.  [customer] is the foreign key; [product],
    as the source names the relation ([order.product.set], [product__id]),
    holds the rows of the many-to-many relation, one product key each. *)
Record t : Type := Build
  { id : Z; customer : Z; total_amount : Z; order_date : Z; product : list Z }.
End Order.

Record Store : Type := mkStore
  { customers : list Customer.t;
    products : list Product.t;
    orders : list Order.t }.

Definition empty_store : Store := mkStore [] [] [].

(** The key the database assigns to the next row of a table. *)
Definition next_pk (ids : list Z) : Z := (1 + fold_right Z.max 0 ids)%Z.

(** [Customer.objects.filter(email=...).exists()] *)
Definition customer_email_exists (st : Store) (email : string) : bool :=
  existsb (fun c => (Customer.email c =? email)%string) (customers st).

(** [Customer.objects.filter(phone=...).exists()] *)
Definition customer_phone_exists (st : Store) (phone : string) : bool :=
  existsb (fun c => match Customer.phone c with
                    | Some p => (p =? phone)%string
                    | None => false
                    end) (customers st).

(** [Customer.objects.get(id=...)]; [None] is [Customer.DoesNotExist]. *)
Definition customer_get (st : Store) (id : Z) : option Customer.t :=
  find (fun c => (Customer.id c =? id)%Z) (customers st).

(** [Product.objects.filter(id__in=ids)]: every product row whose key occurs
    in [ids], once, however often the key occurs there. *)
Definition products_id_in (st : Store) (ids : list Z) : list Product.t :=
  filter (fun p => existsb (Z.eqb (Product.id p)) ids) (products st).

(** Modelled from the spec: [customer.save()] of a new instance, with the
    constraints of the [Customer] model of [crm/models.py] missing.  Spec
    section 9 describes uniqueness in the source as query-then-insert
    checks, not storage constraints: [save] inserts the row it is given
    under the next key and raises nothing. *)
Definition customer_save (st : Store) (name email : string) (phone : option string)
  : Store * Customer.t :=
  let c := Customer.Build (next_pk (map Customer.id (customers st))) name email phone in
  (mkStore (customers st ++ [c]) (products st) (orders st), c).

(** [order.save()] followed by [order.product.set(products)], a plain
    insert like [customer_save]. *)
Definition order_save (st : Store) (customer : Customer.t) (total_amount order_date : Z)
    (prods : list Product.t) : Store * Order.t :=
  let o := Order.Build (next_pk (map Order.id (orders st))) (Customer.id customer)
             total_amount order_date (map Product.id prods) in
  (mkStore (customers st) (products st) (orders st ++ [o]), o).

(** A later change of one product's price by the storage collaborator
    ([Product.objects.filter(id=pid).update(price=p)]).  No mutation of the
    schema performs it; it is here to state what an order keeps. *)
Definition product_set_price (st : Store) (pid p : Z) : Store :=
  mkStore (customers st)
    (map (fun r => if (Product.id r =? pid)%Z
                   then Product.Build (Product.id r) (Product.name r) p (Product.stock r)
                   else r) (products st))
    (orders st).

(** [Order.objects.get(id=...)] *)
Definition order_get (st : Store) (id : Z) : option Order.t :=
  find (fun o => (Order.id o =? id)%Z) (orders st).

(** Primary keys are unique within each table. *)
Definition store_wf (st : Store) : Prop :=
  NoDup (map Customer.id (customers st)) /\
  NoDup (map Product.id (products st)) /\
  NoDup (map Order.id (orders st)).

(** ** Outcomes *)

Inductive result (A : Type) : Type :=
| Ok (a : A)
| Raise (message : string).
Arguments Raise {A} message.

(** Spec section 7 sorts the failures into kinds; the source raises
    [GraphQLError] at every site, and the kind is read off the message. *)
Inductive ErrorKind : Type := ValidationError | ConflictError | NotFoundError.

Definition error_kind (message : string) : option ErrorKind :=
  if (message =? "Invalid phone number format.")%string then Some ValidationError
  else if (message =? "At least one product ID must be provided.")%string then Some ValidationError
  else if (message =? "Some product IDs are invalid or do not exist.")%string then Some ValidationError
  else if (message =? "A customer with this email already exists.")%string then Some ConflictError
  else if (message =? "A customer with this phone number already exists.")%string then Some ConflictError
  else if (message =? "Invalid customer ID.")%string then Some NotFoundError
  else if (message =? "No products found with the provided IDs.")%string then Some NotFoundError
  else None.

(** What a call comes to when exceptions that are no [GraphQLError] can
    leave it: it ends as a [result] says, or such an exception (the
    [ValueError] of an id that names no number, the error of a value that does
    not fit its column) propagates out of the method. *)
Inductive outcome (A : Type) : Type :=
| Done (r : result A)
| Uncaught.
Arguments Uncaught {A}.

(** [r] is the failure with message [m], which is of kind [k]. *)
Definition raises (A : Type) (r : result A) (k : ErrorKind) (m : string) : Prop :=
  r = Raise m /\ error_kind m = Some k.

(** [o] is the call ending in the failure with message [m], of kind [k]. *)
Definition fails (A : Type) (o : outcome A) (k : ErrorKind) (m : string) : Prop :=
  o = Done (Raise m) /\ error_kind m = Some k.

(** Python truth value of a [str]. *)
Definition truthy (s : string) : bool :=
  match s with EmptyString => false | String _ _ => true end.

(** ** Mutations *)

Module CreateCustomerInput.
Record t : Type := Build
  { name : string; email : string; phone : option string }.
End CreateCustomerInput.

Module CreateCustomer.
Record t : Type := Build { customer : Customer.t; message : string }.

Definition mutate (st : Store) (input : CreateCustomerInput.t) : result (Store * t) :=
  match CreateCustomerInput.phone input with
  | None => Raise "Invalid phone number format."
  | Some phone =>
      if negb (truthy phone) || negb (is_valid_phone phone)
      then Raise "Invalid phone number format."
      else if customer_email_exists st (CreateCustomerInput.email input)
      then Raise "A customer with this email already exists."
      else if customer_phone_exists st phone
      then Raise "A customer with this phone number already exists."
      else
        let '(st', customer) :=
          customer_save st (CreateCustomerInput.name input)
            (CreateCustomerInput.email input) (Some phone) in
        Ok (st', Build customer "Customer created successfully.")
  end.
End CreateCustomer.

Module BulkCreateCustomers.
Record t : Type := Build { customers : list Customer.t; errors : list string }.

(** [phone and not is_valid_phone(phone)]: the phone at fault, if there is
    one. *)
Definition invalid_phone (phone : option string) : option string :=
  match phone with
  | Some ph => if truthy ph && negb (is_valid_phone ph) then Some ph else None
  | None => None
  end.

(** The body of the [try]. *)
Definition item_body (st : Store) (item : CreateCustomerInput.t)
  : result (Store * Customer.t) :=
  let name := CreateCustomerInput.name item in
  let email := CreateCustomerInput.email item in
  let phone := CreateCustomerInput.phone item in
  if negb (truthy name) || negb (truthy email)
  then Raise "Name and email are required fields."
  else
    match invalid_phone phone with
    | Some ph => Raise ("Invalid phone number format. " ++ ph)
    | None =>
        if customer_email_exists st email
        then Raise ("A customer with email " ++ email ++ " already exists.")
        else Ok (customer_save st name email phone)
    end.

(** The [for] loop, with the two lists it appends to. *)
Fixpoint loop (input : list CreateCustomerInput.t) (st : Store)
    (created_customers : list Customer.t) (errors : list string) : Store * t :=
  match input with
  | [] => (st, Build created_customers errors)
  | item :: rest =>
      match item_body st item with
      | Ok (st', customer) => loop rest st' (created_customers ++ [customer])%list errors
      | Raise e => loop rest st created_customers (errors ++ [e])%list
      end
  end.

Definition mutate (st : Store) (input : list CreateCustomerInput.t) : Store * t :=
  loop input st [] [].
End BulkCreateCustomers.

Module CreateOrderInput.
(** The input as the two queries see it: each id converted to the key it
    names. *)
Record t : Type := Build
  { customer_id : Z; product_ids : list Z; order_date : option Z }.

(** The input as the method receives it: a [graphene.ID] is a [str]. *)
Record raw : Type := Raw
  { raw_customer_id : string; raw_product_ids : list string;
    raw_order_date : option Z }.
End CreateOrderInput.

Module CreateOrder.
Record t : Type := Build { order : Order.t }.

(** [sum([...])]: a left fold from 0. *)
Definition sum (l : list Z) : Z := fold_left Z.add l 0%Z.

(** The method on an input whose ids have been converted to keys;
    [mutate_raw] below is the method on the ids as they arrive, and comes to
    this one when its two conversions succeed.  [now] is what
    [timezone.now()] returns during the call. *)
Definition mutate (now : Z) (st : Store) (input : CreateOrderInput.t) : result (Store * t) :=
  let product_ids := CreateOrderInput.product_ids input in
  match product_ids with
  | [] => Raise "At least one product ID must be provided."
  | _ :: _ =>
      match customer_get st (CreateOrderInput.customer_id input) with
      | None => Raise "Invalid customer ID."
      | Some customer =>
          let prods := products_id_in st product_ids in
          match prods with
          | [] => Raise "No products found with the provided IDs."
          | _ :: _ =>
              if negb (List.length prods =? List.length product_ids)%nat
              then Raise "Some product IDs are invalid or do not exist."
              else
                let total_amount := sum (map Product.price prods) in
                let order_date :=
                  match CreateOrderInput.order_date input with
                  | Some d => d
                  | None => now
                  end in
                let '(st', order) := order_save st customer total_amount order_date prods in
                Ok (st', Build order)
          end
      end
  end.

(** [filter(id__in=product_ids)] converts every id before it queries: the
    keys, or [None] when one conversion raises. *)
Fixpoint keys_of (to_key : string -> option Z) (ids : list string) : option (list Z) :=
  match ids with
  | [] => Some []
  | i :: rest =>
      match to_key i with
      | None => None
      | Some k =>
          match keys_of to_key rest with
          | None => None
          | Some ks => Some (k :: ks)
          end
      end
  end.

(** The method on the ids as they arrive.  [to_key] is the conversion the
    ORM applies to an id it is given ([int(value)] for an integer key), with
    [None] where it raises: [get(id=customer_id)] converts inside the [try],
    which catches [Customer.DoesNotExist] only, and [filter(id__in=...)]
    converts outside any [try]. *)
Definition mutate_raw (to_key : string -> option Z) (now : Z) (st : Store)
    (input : CreateOrderInput.raw) : outcome (Store * t) :=
  let customer_id := CreateOrderInput.raw_customer_id input in
  let product_ids := CreateOrderInput.raw_product_ids input in
  match product_ids with
  | [] => Done (Raise "At least one product ID must be provided.")
  | _ :: _ =>
      match to_key customer_id with
      | None => Uncaught
      | Some customer_key =>
          match customer_get st customer_key with
          | None => Done (Raise "Invalid customer ID.")
          | Some customer =>
              match keys_of to_key product_ids with
              | None => Uncaught
              | Some keys =>
                  let prods := products_id_in st keys in
                  match prods with
                  | [] => Done (Raise "No products found with the provided IDs.")
                  | _ :: _ =>
                      if negb (List.length prods =? List.length product_ids)%nat
                      then Done (Raise "Some product IDs are invalid or do not exist.")
                      else
                        let total_amount := sum (map Product.price prods) in
                        let order_date :=
                          match CreateOrderInput.raw_order_date input with
                          | Some d => d
                          | None => now
                          end in
                        let '(st', order) :=
                          order_save st customer total_amount order_date prods in
                        Done (Ok (st', Build order))
                  end
              end
          end
      end
  end.
End CreateOrder.

Module OrderType.
Definition resolve_total_amount (self : Order.t) : Z := Order.total_amount self.
End OrderType.

(** [product.save()] of a new instance: the price is written as the column
    holds it, [column_value price] (rounded to the column's decimal places,
    which [crm/models.py] declares); [None] when the price does not fit the
    column and [save()] raises.  Otherwise a plain insert like
    [customer_save]. *)
Definition product_save (column_value : QArith_base.Q -> option Z) (st : Store)
    (name : string) (price : QArith_base.Q) (stock : Z) : option (Store * Product.t) :=
  match column_value price with
  | None => None
  | Some units =>
      let p := Product.Build (next_pk (map Product.id (products st))) name units stock in
      Some (mkStore (customers st) (products st ++ [p]) (orders st), p)
  end.

Module CreateProductInput.
(** [price] is the decimal that [Decimal(str(input.price))] yields for a
    finite float, not rounded: a rational number of units of the price
    column.  [stock] is [None] when the argument is null. *)
Record t : Type := Build
  { name : string; price : QArith_base.Q; stock : option Z }.
End CreateProductInput.

Module CreateProduct.
(** [product] is the row as saved; [price] is the price the returned
    instance carries, which is the price given, not the rounded one. *)
Record t : Type := Build
  { product : Product.t; price : QArith_base.Q; message : string }.

(** [input.stock or 0] *)
Definition stock_or_0 (stock : option Z) : Z :=
  match stock with
  | Some s => if (s =? 0)%Z then 0%Z else s
  | None => 0%Z
  end.

(** [price <= 0] *)
Definition le_0 (price : QArith_base.Q) : bool :=
  QArith_base.Qle_bool price (QArith_base.Qmake 0 1).

Definition mutate (column_value : QArith_base.Q -> option Z) (st : Store)
    (input : CreateProductInput.t) : outcome (Store * t) :=
  let name := CreateProductInput.name input in
  let price := CreateProductInput.price input in
  let stock := stock_or_0 (CreateProductInput.stock input) in
  if le_0 price then Done (Raise "Price must be greater than zero.")
  else if (stock <? 0)%Z then Done (Raise "Stock cannot be negative.")
  else
    match product_save column_value st name price stock with
    | None => Uncaught
    | Some (st', product) =>
        Done (Ok (st', Build product price "Product created successfully."))
    end.
End CreateProduct.

(** ** Filter sets

    [django_filters] is library code.  What the two filter sets rely on: a
    filter whose value is empty ([None], or [""] for a [CharFilter]) returns
    the queryset as it is; any other value is handed to the lookup, or to the
    method named by [method=]; the filters of a set are applied one after the
    other. *)

Module django_filters.
Definition Filter (A R : Type) (value : option A) (lookup : A -> list R -> list R)
    (qs : list R) : list R :=
  match value with
  | None => qs
  | Some v => lookup v qs
  end.

Definition CharFilter (R : Type) (value : option string)
    (lookup : string -> list R -> list R) (qs : list R) : list R :=
  match value with
  | Some (String _ _ as v) => lookup v qs
  | _ => qs
  end.

Definition lower (c : ascii) : ascii :=
  if re.in_range "A" "Z" c then ascii_of_nat (nat_of_ascii c + 32) else c.

Fixpoint lower_str (s : string) : string :=
  match s with
  | EmptyString => EmptyString
  | String c s' => String (lower c) (lower_str s')
  end.

Fixpoint contains (needle hay : string) : bool :=
  String.prefix needle hay ||
  match hay with
  | EmptyString => false
  | String _ hay' => contains needle hay'
  end.

(** The [icontains] lookup. *)
Definition icontains (field value : string) : bool :=
  contains (lower_str value) (lower_str field).
End django_filters.

Module CustomerFilter.
Record data : Type := Build
  { name : option string;
    email : option string;
    created_at__gte : option Z;
    created_at__lte : option Z;
    phone_startswith : option string }.

Definition queryset : Type := list Customer.t.

(** [Q(phone__startswith=value) | Q(phone__isnull=True)] *)
Definition phone_starts_or_null (value : string) (c : Customer.t) : bool :=
  match Customer.phone c with
  | Some p => String.prefix value p
  | None => true
  end.

Definition filter_phone_startswith (qs : queryset) (value : string) : queryset :=
  if truthy value then filter (phone_starts_or_null value) qs else qs.

(** [created_at] reads the column of that name, which the [Customer] record
    does not carry; the bounds are the instants the lookups compare with. *)
Definition filter_queryset (created_at : Customer.t -> Z) (d : data) (qs : queryset)
  : queryset :=
  let qs := django_filters.CharFilter (name d)
              (fun v => filter (fun c => django_filters.icontains (Customer.name c) v)) qs in
  let qs := django_filters.CharFilter (email d)
              (fun v => filter (fun c => django_filters.icontains (Customer.email c) v)) qs in
  let qs := django_filters.Filter (created_at__gte d)
              (fun v => filter (fun c => (v <=? created_at c)%Z)) qs in
  let qs := django_filters.Filter (created_at__lte d)
              (fun v => filter (fun c => (created_at c <=? v)%Z)) qs in
  django_filters.CharFilter (phone_startswith d) (fun v q => filter_phone_startswith q v) qs.
End CustomerFilter.

Module ProductFilter.
Record data : Type := Build
  { name : option string;
    price__gte : option Z;
    price__lte : option Z;
    stock__gte : option Z;
    stock__lte : option Z;
    low_stock : option bool }.

Definition queryset : Type := list Product.t.

Definition filter_low_stock (qs : queryset) (value : bool) : queryset :=
  if value then filter (fun p => (Product.stock p <? 10)%Z) qs else qs.

Definition filter_queryset (d : data) (qs : queryset) : queryset :=
  let qs := django_filters.CharFilter (name d)
              (fun v => filter (fun p => django_filters.icontains (Product.name p) v)) qs in
  let qs := django_filters.Filter (price__gte d)
              (fun v => filter (fun p => (v <=? Product.price p)%Z)) qs in
  let qs := django_filters.Filter (price__lte d)
              (fun v => filter (fun p => (Product.price p <=? v)%Z)) qs in
  let qs := django_filters.Filter (stock__gte d)
              (fun v => filter (fun p => (v <=? Product.stock p)%Z)) qs in
  let qs := django_filters.Filter (stock__lte d)
              (fun v => filter (fun p => (Product.stock p <=? v)%Z)) qs in
  django_filters.Filter (low_stock d) (fun v q => filter_low_stock q v) qs.

(** No filter supplied. *)
Definition unset : data := Build None None None None None None.

(** [d] with its [low_stock] argument replaced. *)
Definition with_low_stock (d : data) (v : option bool) : data :=
  Build (name d) (price__gte d) (price__lte d) (stock__gte d) (stock__lte d) v.
End ProductFilter.

Module OrderFilter.
Record data : Type := Build
  { total_amount__gte : option Z;
    total_amount__lte : option Z;
    order_date__gte : option Z;
    order_date__lte : option Z;
    customer_name : option string;
    product_name : option string;
    product_id : option Z }.

Definition queryset : Type := list Order.t.

(** A lookup through the many-to-many relation joins the order with its
    product rows: the order is yielded once for each row that satisfies the
    condition. *)
Definition join_product (cond : Z -> bool) (qs : queryset) : queryset :=
  flat_map (fun o => map (fun _ => o) (filter cond (Order.product o))) qs.

(** [if value:] on the number the filter hands over. *)
Definition filter_product_id (qs : queryset) (value : Z) : queryset :=
  if (value =? 0)%Z then qs
  else join_product (fun pid => (pid =? value)%Z) qs.

Definition customer_name_matches (st : Store) (v : string) (o : Order.t) : bool :=
  match customer_get st (Order.customer o) with
  | Some c => django_filters.icontains (Customer.name c) v
  | None => false
  end.

Definition product_name_matches (st : Store) (v : string) (pid : Z) : bool :=
  existsb (fun p => (Product.id p =? pid)%Z && django_filters.icontains (Product.name p) v)
    (products st).

Definition filter_queryset (st : Store) (d : data) (qs : queryset) : queryset :=
  let qs := django_filters.Filter (total_amount__gte d)
              (fun v => filter (fun o => (v <=? Order.total_amount o)%Z)) qs in
  let qs := django_filters.Filter (total_amount__lte d)
              (fun v => filter (fun o => (Order.total_amount o <=? v)%Z)) qs in
  let qs := django_filters.Filter (order_date__gte d)
              (fun v => filter (fun o => (v <=? Order.order_date o)%Z)) qs in
  let qs := django_filters.Filter (order_date__lte d)
              (fun v => filter (fun o => (Order.order_date o <=? v)%Z)) qs in
  let qs := django_filters.CharFilter (customer_name d)
              (fun v => filter (customer_name_matches st v)) qs in
  let qs := django_filters.CharFilter (product_name d)
              (fun v => join_product (product_name_matches st v)) qs in
  django_filters.Filter (product_id d) (fun v q => filter_product_id q v) qs.

Definition unset : data := Build None None None None None None None.

(** [d] with its [product_id] argument replaced. *)
Definition with_product_id (d : data) (v : option Z) : data :=
  Build (total_amount__gte d) (total_amount__lte d) (order_date__gte d)
    (order_date__lte d) (customer_name d) (product_name d) v.

(** The method of that name; no filter of the set names it in [method=]. *)
Definition filter_product_name (st : Store) (qs : queryset) (value : string) : queryset :=
  if truthy value then join_product (product_name_matches st value) qs else qs.
End OrderFilter.

(** ** The specification's readings, for comparison with the code *)

(** Spec section 4.1, [validatePhone]: an optional leading [+], a first digit
    1-9, 2 to 15 digits in total, and nothing else. *)
Fixpoint all_digits (s : string) : bool :=
  match s with
  | EmptyString => true
  | String c s' => re.is_digit c && all_digits s'
  end.

Definition digits_shape (digits : string) : bool :=
  match digits with
  | EmptyString => false
  | String d rest =>
      re.in_range "1" "9" d && all_digits rest &&
      (2 <=? String.length digits)%nat && (String.length digits <=? 15)%nat
  end.

Definition phone_shape (s : string) : bool :=
  match s with
  | String c rest => if Ascii.eqb c "+" then digits_shape rest else digits_shape s
  | EmptyString => false
  end.

(** [s] without its last character when that is a newline. *)
Fixpoint chomp (s : string) : string :=
  match s with
  | EmptyString => EmptyString
  | String c s' =>
      match s' with
      | EmptyString => if Ascii.eqb c re.LF then EmptyString else s
      | String _ _ => String c (chomp s')
      end
  end.

(** Spec section 3: a phone that is present occurs on one customer only. *)
Definition present_phones (st : Store) : list string :=
  flat_map (fun c => match Customer.phone c with
                     | Some p => [p]
                     | None => []
                     end) (customers st).

Definition phones_unique (st : Store) : Prop := NoDup (present_phones st).

(** Spec section 4.3, the per-item conditions of BulkCreateCustomers: name
    and email present, phone absent or valid, email not in the store. *)
Definition phone_acceptable (phone : option string) : bool :=
  match phone with
  | Some ph => negb (truthy ph) || is_valid_phone ph
  | None => true
  end.

Definition item_fields_ok (item : CreateCustomerInput.t) : bool :=
  truthy (CreateCustomerInput.name item) && truthy (CreateCustomerInput.email item) &&
  phone_acceptable (CreateCustomerInput.phone item).

Definition item_valid (st : Store) (item : CreateCustomerInput.t) : bool :=
  item_fields_ok item && negb (customer_email_exists st (CreateCustomerInput.email item)).

Definition email_exists_message (email : string) : string :=
  ("A customer with email " ++ email ++ " already exists.")%string.

(** Running one batch after another: the second starts in the store the first
    leaves, and the reports are concatenated. *)
Definition bulk_then (a : Store * BulkCreateCustomers.t)
    (f : Store -> Store * BulkCreateCustomers.t) : Store * BulkCreateCustomers.t :=
  let '(st1, r1) := a in
  let '(st2, r2) := f st1 in
  (st2, BulkCreateCustomers.Build
          (BulkCreateCustomers.customers r1 ++ BulkCreateCustomers.customers r2)
          (BulkCreateCustomers.errors r1 ++ BulkCreateCustomers.errors r2)).

(** What one turn of the loop contributes. *)
Definition turn (st : Store) (item : CreateCustomerInput.t)
  : Store * BulkCreateCustomers.t :=
  match BulkCreateCustomers.item_body st item with
  | Ok (st', customer) => (st', BulkCreateCustomers.Build [customer] [])
  | Raise e => (st, BulkCreateCustomers.Build [] [e])
  end.

(** A sequence of later price changes. *)
Definition price_changes (st : Store) (changes : list (Z * Z)) : Store :=
  fold_left (fun s ch => product_set_price s (fst ch) (snd ch)) changes st.

(** ** Invariants and readings of the filters *)

(** No two customers share an email. *)
Definition emails_unique (st : Store) : Prop :=
  NoDup (map Customer.email (customers st)).

(** Every order names a customer and products that are in the store, and
    holds at least one product, each once. *)
Definition order_refers (st : Store) (o : Order.t) : Prop :=
  (exists c, In c (customers st) /\ Customer.id c = Order.customer o) /\
  (forall pid, In pid (Order.product o) ->
     exists p, In p (products st) /\ Product.id p = pid) /\
  Order.product o <> [] /\ NoDup (Order.product o).

Definition orders_refer (st : Store) : Prop :=
  forall o, In o (orders st) -> order_refers st o.

(** What a value set for a filter asks of a row; an unset filter asks
    nothing. *)
Definition asks (A : Type) (value : option A) (cond : A -> bool) : bool :=
  match value with
  | Some v => cond v
  | None => true
  end.

Definition asks_str (value : option string) (cond : string -> bool) : bool :=
  match value with
  | Some (String _ _ as v) => cond v
  | _ => true
  end.

Definition product_matches (d : ProductFilter.data) (p : Product.t) : bool :=
  asks_str (ProductFilter.name d) (django_filters.icontains (Product.name p)) &&
  asks (ProductFilter.price__gte d) (fun v => (v <=? Product.price p)%Z) &&
  asks (ProductFilter.price__lte d) (fun v => (Product.price p <=? v)%Z) &&
  asks (ProductFilter.stock__gte d) (fun v => (v <=? Product.stock p)%Z) &&
  asks (ProductFilter.stock__lte d) (fun v => (Product.stock p <=? v)%Z) &&
  asks (ProductFilter.low_stock d) (fun v => negb v || (Product.stock p <? 10)%Z).

Definition customer_matches (created_at : Customer.t -> Z) (d : CustomerFilter.data)
    (c : Customer.t) : bool :=
  asks_str (CustomerFilter.name d) (django_filters.icontains (Customer.name c)) &&
  asks_str (CustomerFilter.email d) (django_filters.icontains (Customer.email c)) &&
  asks (CustomerFilter.created_at__gte d) (fun v => (v <=? created_at c)%Z) &&
  asks (CustomerFilter.created_at__lte d) (fun v => (created_at c <=? v)%Z) &&
  asks_str (CustomerFilter.phone_startswith d)
    (fun v => match Customer.phone c with
              | Some p => String.prefix v p
              | None => true
              end).

Definition order_matches (st : Store) (d : OrderFilter.data) (o : Order.t) : bool :=
  asks (OrderFilter.total_amount__gte d) (fun v => (v <=? Order.total_amount o)%Z) &&
  asks (OrderFilter.total_amount__lte d) (fun v => (Order.total_amount o <=? v)%Z) &&
  asks (OrderFilter.order_date__gte d) (fun v => (v <=? Order.order_date o)%Z) &&
  asks (OrderFilter.order_date__lte d) (fun v => (Order.order_date o <=? v)%Z) &&
  asks_str (OrderFilter.customer_name d) (fun v => OrderFilter.customer_name_matches st v o) &&
  asks_str (OrderFilter.product_name d)
    (fun v => existsb (OrderFilter.product_name_matches st v) (Order.product o)) &&
  asks (OrderFilter.product_id d)
    (fun v => (v =? 0)%Z || existsb (fun pid => (pid =? v)%Z) (Order.product o)).

Definition order_eq_dec (a b : Order.t) : {a = b} + {a <> b}.
Proof.
  decide equality; try apply Z.eq_dec. apply (list_eq_dec Z.eq_dec).
Defined.

(** ** Sample data, for the concrete instances below *)

Definition sample_store : Store :=
  mkStore [Customer.Build 1 "A" "a@x.com" None]
    [Product.Build 1 "pen" 250 3; Product.Build 2 "ink" 100 30] [].

Definition sample_A : CreateCustomerInput.t :=
  CreateCustomerInput.Build "A" "a@x.com" (Some "+15551234567"%string).

Definition sample_nameless : CreateCustomerInput.t :=
  CreateCustomerInput.Build "" "b@x.com" None.

Definition sample_same_email : CreateCustomerInput.t :=
  CreateCustomerInput.Build "B" "a@x.com" (Some "+15557654321"%string).

Definition sample_same_phone : CreateCustomerInput.t :=
  CreateCustomerInput.Build "B" "b@x.com" (Some "+15551234567"%string).

Definition sample_order : CreateOrderInput.t :=
  CreateOrderInput.Build 1 [2%Z; 1%Z] None.

Definition sample_order_twice : CreateOrderInput.t :=
  CreateOrderInput.Build 1 [1%Z; 1%Z] None.

(** A conversion for the concrete instances: the number a plain decimal
    numeral denotes, and [None] on every other string.  It agrees with
    [int()] on plain numerals and on strings that hold a letter or [=],
    which are the ids the instances use; [int()] also accepts a sign, blanks
    around the numeral and underscores between digits. *)
Fixpoint digits_value (s : string) (acc : Z) : option Z :=
  match s with
  | EmptyString => Some acc
  | String c s' =>
      if re.is_digit c
      then digits_value s' (10 * acc + Z.of_nat (nat_of_ascii c - 48))%Z
      else None
  end.

Definition numeral_key (s : string) : option Z :=
  match s with
  | EmptyString => None
  | String _ _ => digits_value s 0%Z
  end.

(** A column for the concrete instances: whole units, halves rounded up. *)
Definition whole_units (price : QArith_base.Q) : option Z :=
  Some (Qround.Qfloor (QArith_base.Qplus price (QArith_base.Qmake 1 2))).

Definition sample_raw_order : CreateOrderInput.raw :=
  CreateOrderInput.Raw "1" ["2"%string; "1"%string] None.

(** The customer id is no numeral; [Q3VzdG9tZXJUeXBlOjE=] is the relay id of
    customer 1, the form in which the API hands ids out. *)
Definition sample_raw_order_abc : CreateOrderInput.raw :=
  CreateOrderInput.Raw "abc" ["1"%string] None.

Definition sample_raw_order_relay : CreateOrderInput.raw :=
  CreateOrderInput.Raw "Q3VzdG9tZXJUeXBlOjE=" ["1"%string] None.

(** The customer id is a numeral that names no customer. *)
Definition sample_raw_order_99 : CreateOrderInput.raw :=
  CreateOrderInput.Raw "99" ["1"%string] None.

(** The customer exists; the product id is no numeral. *)
Definition sample_raw_order_product_abc : CreateOrderInput.raw :=
  CreateOrderInput.Raw "1" ["abc"%string] None.

(* ================================================================== *)
(** * Part II. Properties                                               *)
(* ================================================================== *)

(** ** The phone pattern *)

Section PhonePattern.

Let k_end : re.cont := fun _ s => re.at_dollar s && true.

Lemma is_digit_LF : re.is_digit re.LF = false.
Proof. reflexivity. Qed.

Lemma k_end_eq (pos : nat) (s : string) : k_end pos s = re.at_dollar s.
Proof. unfold k_end. apply andb_true_r. Qed.

Lemma at_dollar_chomp (s : string) :
  re.at_dollar s = all_digits (chomp s) && (String.length (chomp s) <=? 0)%nat.
Proof.
  destruct s as [|c [|c' s'']]; cbn -[re.is_digit re.LF]; try reflexivity.
  - destruct (Ascii.eqb c re.LF); cbn -[re.is_digit]; [reflexivity|].
    now rewrite andb_false_r.
  - now rewrite andb_false_r.
Qed.

Lemma chomp_cons (c c' : ascii) (s : string) :
  chomp (String c (String c' s)) = String c (chomp (String c' s)).
Proof. reflexivity. Qed.

Lemma at_most_digits (n pos : nat) (s : string) :
  re.at_most (re.one re.is_digit) n pos s k_end
  = all_digits (chomp s) && (String.length (chomp s) <=? n)%nat.
Proof.
  revert pos s; induction n as [|n IH]; intros pos s.
  - cbn [re.at_most]. rewrite k_end_eq. apply at_dollar_chomp.
  - destruct s as [|c s']; [reflexivity|].
    cbn [re.at_most re.one]. rewrite IH, k_end_eq.
    destruct s' as [|c' s''].
    + cbn -[re.is_digit re.LF Nat.leb].
      destruct (Ascii.eqb c re.LF) eqn:E; cbn -[re.is_digit re.LF Nat.leb].
      * now rewrite orb_true_r.
      * now rewrite !andb_true_r, orb_false_r.
    + rewrite chomp_cons. cbn [re.at_dollar all_digits String.length].
      rewrite orb_false_r, !andb_assoc. reflexivity.
Qed.

Lemma run_digits_pattern (pos : nat) (s : string) :
  re.run digits_pattern pos s (fun _ _ => true) = digits_shape (chomp s).
Proof.
  unfold digits_pattern. cbn [re.run re.exactly Nat.sub].
  change (fun (_ : nat) (s0 : string) => re.at_dollar s0 && true) with k_end.
  destruct s as [|d rest]; [reflexivity|].
  cbn [re.one].
  destruct rest as [|c r2].
  - cbn -[re.in_range re.LF Nat.leb].
    destruct (Ascii.eqb d re.LF); cbn -[re.in_range]; now rewrite ?andb_false_r.
  - rewrite chomp_cons. unfold re.one at 1. rewrite at_most_digits.
    cbn [digits_shape String.length all_digits].
    destruct r2 as [|c2 r3].
    + cbn -[re.in_range re.is_digit re.LF Nat.leb].
      destruct (Ascii.eqb c re.LF) eqn:E.
      * apply Ascii.eqb_eq in E; subst c. rewrite is_digit_LF.
        cbn -[re.in_range]. now rewrite ?andb_false_r.
      * cbn -[re.in_range re.is_digit]. now rewrite ?andb_true_r.
    + rewrite chomp_cons. cbn [all_digits String.length].
      destruct (re.in_range "1" "9" d), (re.is_digit c), (all_digits (chomp (String c2 r3)));
        reflexivity.
Qed.

Lemma match_phone_pattern (s : string) :
  is_valid_phone s = phone_shape (chomp s).
Proof.
  unfold is_valid_phone, re.match_, phone_pattern. cbn [re.run Nat.eqb andb].
  destruct s as [|c rest]; [reflexivity|].
  unfold re.one at 1. rewrite !run_digits_pattern.
  rewrite (Ascii.eqb_sym "+" c).
  destruct rest as [|c' r].
  - cbn -[re.LF digits_shape].
    destruct (Ascii.eqb c re.LF) eqn:E; [now rewrite andb_false_r|].
    cbn [phone_shape].
    destruct (Ascii.eqb c "+") eqn:P; [|reflexivity].
    apply Ascii.eqb_eq in P; subst c. reflexivity.
  - rewrite chomp_cons. cbn [phone_shape].
    destruct (Ascii.eqb c "+") eqn:P; [|reflexivity].
    apply Ascii.eqb_eq in P; subst c. cbn [andb].
    apply orb_false_r.
Qed.

End PhonePattern.

(** C7, at the input that separates the code from the specified shape: the
    two digits [12] followed by a newline are accepted by [is_valid_phone],
    although the string holds a character that is no digit and so is not
    "an optional [+], a first digit 1-9, 2 to 15 digits in total". *)
Theorem is_valid_phone_trailing_newline :
  is_valid_phone (String "1" (String "2" (String re.LF ""))) = true /\
  phone_shape (String "1" (String "2" (String re.LF ""))) = false /\
  all_digits (String "1" (String "2" (String re.LF ""))) = false.
Proof. repeat split; reflexivity. Qed.

(** What the validator accepts: the strings of the specified shape, and
    those strings followed by one newline. *)
Theorem is_valid_phone_shape (s : string) :
  is_valid_phone s = phone_shape (chomp s).
Proof. apply match_phone_pattern. Qed.

(** Away from that case the validator is the specified shape: on a string
    that does not end in a newline, it accepts exactly the shape. *)
Lemma is_valid_phone_without_newline (s : string) :
  chomp s = s -> is_valid_phone s = phone_shape s.
Proof. intros E. rewrite match_phone_pattern, E. reflexivity. Qed.

(** ** The store *)

Section StoreFacts.

Lemma next_pk_above (ids : list Z) (i : Z) : In i ids -> (i < next_pk ids)%Z.
Proof.
  unfold next_pk. induction ids as [|a ids IH]; cbn [fold_right In].
  - contradiction.
  - intros [->|H]; [lia|]. specialize (IH H). lia.
Qed.

Lemma next_pk_fresh (ids : list Z) : ~ In (next_pk ids) ids.
Proof. intros H. apply next_pk_above in H. lia. Qed.

Lemma NoDup_snoc (A : Type) (l : list A) (a : A) :
  NoDup l -> ~ In a l -> NoDup (l ++ [a]).
Proof.
  intros Hl Ha. apply NoDup_app; [assumption|repeat constructor; intros []|].
  intros x Hx [<-|[]]. contradiction.
Qed.

Lemma find_snoc_fresh (A : Type) (key : A -> Z) (l : list A) (a : A) :
  (forall x, In x l -> key x <> key a) ->
  find (fun x => (key x =? key a)%Z) (l ++ [a]) = Some a.
Proof.
  induction l as [|x l IH]; intros H; cbn [app find].
  - now rewrite Z.eqb_refl.
  - destruct (Z.eqb_spec (key x) (key a)) as [E|_].
    + exfalso. apply (H x); [now left|exact E].
    + apply IH. intros y Hy. apply H. now right.
Qed.

Lemma NoDup_map_filter (A : Type) (key : A -> Z) (f : A -> bool) (l : list A) :
  NoDup (map key l) -> NoDup (map key (filter f l)).
Proof.
  induction l as [|x l IH]; cbn [map filter]; intros H; [constructor|].
  inversion H as [|? ? Hx Hl]; subst.
  destruct (f x); cbn [map]; [|now apply IH].
  constructor; [|now apply IH].
  intros Hin. apply Hx. apply in_map_iff in Hin.
  destruct Hin as (y & Hy & Hin). apply filter_In in Hin.
  apply in_map_iff. exists y. tauto.
Qed.

(** What [id__in] yields: distinct keys, every one of them requested. *)
Lemma products_id_in_NoDup (st : Store) (ids : list Z) :
  store_wf st -> NoDup (map Product.id (products_id_in st ids)).
Proof. intros (_ & H & _). now apply NoDup_map_filter. Qed.

Lemma products_id_in_incl (st : Store) (ids : list Z) :
  incl (map Product.id (products_id_in st ids)) ids.
Proof.
  intros i Hi. apply in_map_iff in Hi. destruct Hi as (p & <- & Hp).
  apply filter_In in Hp. destruct Hp as [_ Hp].
  apply existsb_exists in Hp. destruct Hp as (j & Hj & E).
  apply Z.eqb_eq in E. now rewrite E.
Qed.

Lemma products_id_in_complete (st : Store) (ids : list Z) (p : Product.t) :
  In p (products st) -> In (Product.id p) ids -> In p (products_id_in st ids).
Proof.
  intros Hp Hi. apply filter_In. split; [assumption|].
  apply existsb_exists. exists (Product.id p). split; [assumption|apply Z.eqb_refl].
Qed.

(** A request that repeats a key cannot be matched row for row. *)
Lemma products_id_in_duplicate (st : Store) (ids : list Z) :
  store_wf st -> ~ NoDup ids ->
  List.length (products_id_in st ids) <> List.length ids.
Proof.
  intros Hwf Hdup E. apply Hdup.
  apply (NoDup_incl_NoDup (l := map Product.id (products_id_in st ids))).
  - now apply products_id_in_NoDup.
  - rewrite length_map, E. apply le_n.
  - apply products_id_in_incl.
Qed.

(** A request of distinct existing keys is matched row for row. *)
Lemma products_id_in_all (st : Store) (ids : list Z) :
  store_wf st -> NoDup ids ->
  (forall i, In i ids -> exists p, In p (products st) /\ Product.id p = i) ->
  List.length (products_id_in st ids) = List.length ids.
Proof.
  intros Hwf Hnd Hex. rewrite <- (length_map Product.id).
  apply Nat.le_antisymm.
  - apply NoDup_incl_length; [now apply products_id_in_NoDup|apply products_id_in_incl].
  - apply NoDup_incl_length; [assumption|].
    intros i Hi. destruct (Hex i Hi) as (p & Hp & <-).
    apply in_map. now apply products_id_in_complete.
Qed.

Lemma sum_fold_right (l : list Z) : CreateOrder.sum l = fold_right Z.add 0%Z l.
Proof.
  unfold CreateOrder.sum. apply fold_symmetric; intros; lia.
Qed.

Lemma price_changes_orders (changes : list (Z * Z)) (st : Store) :
  orders (price_changes st changes) = orders st /\
  customers (price_changes st changes) = customers st.
Proof.
  unfold price_changes. revert st.
  induction changes as [|ch changes IH]; intros st; cbn [fold_left]; [now split|].
  destruct (IH (product_set_price st (fst ch) (snd ch))) as [-> ->]. now split.
Qed.

End StoreFacts.

(** ** CreateCustomer *)

Section CreateCustomerFacts.

Lemma is_valid_phone_truthy (ph : string) : is_valid_phone ph = true -> truthy ph = true.
Proof. destruct ph; [discriminate|reflexivity]. Qed.

Lemma customer_save_customers (st : Store) (name email : string) (phone : option string) :
  customers (fst (customer_save st name email phone))
  = customers st ++ [snd (customer_save st name email phone)].
Proof. reflexivity. Qed.

Lemma email_exists_snoc (st : Store) (name email : string) (phone : option string)
    (e : string) :
  customer_email_exists (fst (customer_save st name email phone)) e
  = customer_email_exists st e || (email =? e)%string.
Proof.
  unfold customer_email_exists, customer_save. cbn [fst customers].
  rewrite existsb_app. cbn. now rewrite orb_false_r.
Qed.

Lemma customer_email_exists_In (st : Store) (e : string) :
  customer_email_exists st e = true <->
  exists c, In c (customers st) /\ Customer.email c = e.
Proof.
  unfold customer_email_exists. rewrite existsb_exists.
  split; intros (c & Hc & E); exists c; (split; [assumption|]);
    now apply String.eqb_eq.
Qed.

Lemma customer_phone_exists_In (st : Store) (ph : string) :
  customer_phone_exists st ph = true <-> In ph (present_phones st).
Proof.
  unfold customer_phone_exists, present_phones.
  rewrite existsb_exists, in_flat_map. split.
  - intros (c & Hc & E). exists c. split; [assumption|].
    destruct (Customer.phone c) as [p|]; [|discriminate].
    apply String.eqb_eq in E. subst p. now left.
  - intros (c & Hc & E). exists c. split; [assumption|].
    destruct (Customer.phone c) as [p|]; [|contradiction].
    destruct E as [->|[]]. apply String.eqb_refl.
Qed.

(** The only way out of [CreateCustomer.mutate] with a result. *)
Lemma CreateCustomer_Ok_inv (st st' : Store) (input : CreateCustomerInput.t)
    (r : CreateCustomer.t) :
  CreateCustomer.mutate st input = Ok (st', r) ->
  exists ph,
    CreateCustomerInput.phone input = Some ph /\
    is_valid_phone ph = true /\
    customer_email_exists st (CreateCustomerInput.email input) = false /\
    customer_phone_exists st ph = false /\
    (st', CreateCustomer.customer r)
    = customer_save st (CreateCustomerInput.name input)
        (CreateCustomerInput.email input) (Some ph) /\
    CreateCustomer.message r = "Customer created successfully."%string.
Proof.
  unfold CreateCustomer.mutate.
  destruct (CreateCustomerInput.phone input) as [ph|]; [|discriminate].
  destruct (truthy ph); cbn [negb orb]; [|discriminate].
  destruct (is_valid_phone ph) eqn:Hok; cbn [negb]; [|discriminate].
  destruct (customer_email_exists st _) eqn:He; [discriminate|].
  destruct (customer_phone_exists st ph) eqn:Hp; [discriminate|].
  unfold customer_save. intros H. injection H as <- <-.
  exists ph. repeat split; assumption.
Qed.

(** The sibling of the bulk mutation keeps present phones distinct. *)
Lemma CreateCustomer_phones_unique (st st' : Store) (input : CreateCustomerInput.t)
    (r : CreateCustomer.t) :
  phones_unique st -> CreateCustomer.mutate st input = Ok (st', r) -> phones_unique st'.
Proof.
  intros Hu H. apply CreateCustomer_Ok_inv in H.
  destruct H as (ph & _ & _ & _ & Hp & H & _).
  unfold customer_save in H. injection H as -> _.
  unfold phones_unique, present_phones in *. cbn [customers].
  rewrite flat_map_app. cbn [flat_map Customer.phone app].
  apply NoDup_snoc; [assumption|].
  intros Hin. apply customer_phone_exists_In in Hin. congruence.
Qed.

End CreateCustomerFacts.

(** C3.  CreateCustomer fails with ValidationError when the phone is absent
    or not accepted by the validator; with a phone that is accepted, it
    fails with ConflictError when the email is in the store, otherwise with
    ConflictError when the phone is in the store; otherwise it adds exactly
    one customer, under a new key, and returns it with the confirmation
    message.  After a create that succeeded, a create with the same email
    fails, with ConflictError as soon as its phone is accepted. *)
Theorem CreateCustomer_checks (st : Store) (input : CreateCustomerInput.t) :
  let name := CreateCustomerInput.name input in
  let email := CreateCustomerInput.email input in
  let outcome := CreateCustomer.mutate st input in
  ((forall ph, CreateCustomerInput.phone input = Some ph -> is_valid_phone ph = false) ->
   raises outcome ValidationError "Invalid phone number format.") /\
  (forall ph, CreateCustomerInput.phone input = Some ph -> is_valid_phone ph = true ->
     (customer_email_exists st email = true ->
      raises outcome ConflictError "A customer with this email already exists.") /\
     (customer_email_exists st email = false -> customer_phone_exists st ph = true ->
      raises outcome ConflictError "A customer with this phone number already exists.") /\
     (customer_email_exists st email = false -> customer_phone_exists st ph = false ->
      let c := Customer.Build (next_pk (map Customer.id (customers st))) name email (Some ph) in
      outcome = Ok (mkStore (customers st ++ [c]) (products st) (orders st),
                    CreateCustomer.Build c "Customer created successfully.") /\
      ~ In (Customer.id c) (map Customer.id (customers st)))) /\
  (forall st1 r1 second,
     outcome = Ok (st1, r1) -> CreateCustomerInput.email second = email ->
     (exists m, CreateCustomer.mutate st1 second = Raise m) /\
     (forall ph, CreateCustomerInput.phone second = Some ph -> is_valid_phone ph = true ->
        raises (CreateCustomer.mutate st1 second) ConflictError
          "A customer with this email already exists.")).
Proof.
  cbv zeta. unfold raises. split; [|split].
  - intros Hbad. split; [|reflexivity]. unfold CreateCustomer.mutate.
    destruct (CreateCustomerInput.phone input) as [ph|]; [|reflexivity].
    rewrite (Hbad ph eq_refl). cbn [negb]. now rewrite orb_true_r.
  - intros ph Hph Hok. unfold CreateCustomer.mutate. rewrite Hph, Hok.
    rewrite (is_valid_phone_truthy _ Hok). cbn [negb orb].
    split; [|split].
    + intros ->. now split.
    + intros -> ->. now split.
    + intros -> ->. split; [reflexivity|]. apply next_pk_fresh.
  - intros st1 r1 second H Hemail.
    apply CreateCustomer_Ok_inv in H. destruct H as (ph & _ & _ & _ & _ & H & _).
    assert (Hex : customer_email_exists st1 (CreateCustomerInput.email second) = true).
    { apply (f_equal fst) in H. cbn [fst] in H. rewrite H, email_exists_snoc, Hemail.
      rewrite String.eqb_refl. apply orb_true_r. }
    unfold CreateCustomer.mutate. rewrite Hex. split.
    + destruct (CreateCustomerInput.phone second) as [ph2|]; [|eauto].
      destruct (negb (truthy ph2) || negb (is_valid_phone ph2)); eauto.
    + intros ph2 -> Hok. rewrite Hok, (is_valid_phone_truthy _ Hok). now split.
Qed.

Lemma CreateCustomer_checks_witness :
  exists st1 r1,
    CreateCustomer.mutate empty_store sample_A = Ok (st1, r1) /\
    customers st1 = [CreateCustomer.customer r1] /\
    raises (CreateCustomer.mutate st1 sample_same_email) ConflictError
      "A customer with this email already exists.".
Proof.
  let v := eval vm_compute in (CreateCustomer.mutate empty_store sample_A) in
  match v with
  | Ok (?s, ?r) =>
      exists s, r; split; [reflexivity|]; split; [reflexivity|];
      exact (proj2 (proj2 (proj2 (CreateCustomer_checks empty_store sample_A))
                      s r sample_same_email eq_refl eq_refl)
               "+15557654321"%string eq_refl eq_refl)
  end.
Defined.

Lemma CreateCustomer_phones_unique_witness :
  exists st1 r1,
    CreateCustomer.mutate empty_store sample_A = Ok (st1, r1) /\ phones_unique st1.
Proof.
  let v := eval vm_compute in (CreateCustomer.mutate empty_store sample_A) in
  match v with
  | Ok (?s, ?r) =>
      exists s, r; split; [reflexivity|];
      exact (@CreateCustomer_phones_unique empty_store s sample_A r
               (NoDup_nil string) eq_refl)
  end.
Defined.

(** ** BulkCreateCustomers *)

Section BulkFacts.

Lemma loop_acc (input : list CreateCustomerInput.t) (st : Store)
    (cs : list Customer.t) (es : list string) :
  BulkCreateCustomers.loop input st cs es
  = (fst (BulkCreateCustomers.mutate st input),
     BulkCreateCustomers.Build (cs ++ BulkCreateCustomers.customers (snd (BulkCreateCustomers.mutate st input)))
           (es ++ BulkCreateCustomers.errors (snd (BulkCreateCustomers.mutate st input)))).
Proof.
  unfold BulkCreateCustomers.mutate. revert st cs es.
  induction input as [|item rest IH]; intros st cs es; cbn [BulkCreateCustomers.loop].
  - cbn. now rewrite !app_nil_r.
  - destruct (BulkCreateCustomers.item_body st item) as [[st' c]|e].
    + rewrite (IH st' (cs ++ [c]) es), (IH st' ([] ++ [c]) []). cbn.
      now rewrite <- app_assoc.
    + rewrite (IH st cs (es ++ [e])), (IH st [] ([] ++ [e])). cbn.
      now rewrite <- app_assoc.
Qed.

Lemma mutate_cons (st : Store) (item : CreateCustomerInput.t)
    (rest : list CreateCustomerInput.t) :
  BulkCreateCustomers.mutate st (item :: rest) = bulk_then (turn st item) (fun s => BulkCreateCustomers.mutate s rest).
Proof.
  unfold BulkCreateCustomers.mutate at 1, turn. cbn [BulkCreateCustomers.loop].
  destruct (BulkCreateCustomers.item_body st item) as [[st' c]|e]; rewrite loop_acc; cbn;
    now destruct (BulkCreateCustomers.mutate _ rest).
Qed.

Lemma bulk_then_assoc (a : Store * BulkCreateCustomers.t) (f g : Store -> Store * BulkCreateCustomers.t) :
  bulk_then (bulk_then a f) g = bulk_then a (fun s => bulk_then (f s) g).
Proof.
  destruct a as [s1 r1]. cbn. destruct (f s1) as [s2 r2]. cbn.
  destruct (g s2) as [s3 r3]. cbn. now rewrite !app_assoc.
Qed.

Lemma mutate_app (st : Store) (xs ys : list CreateCustomerInput.t) :
  BulkCreateCustomers.mutate st (xs ++ ys) = bulk_then (BulkCreateCustomers.mutate st xs) (fun s => BulkCreateCustomers.mutate s ys).
Proof.
  revert st. induction xs as [|item xs IH]; intros st.
  - cbn [app]. change (BulkCreateCustomers.mutate st []) with (st, BulkCreateCustomers.Build [] []). cbn [bulk_then].
    now destruct (BulkCreateCustomers.mutate st ys) as [s2 [c2 e2]].
  - cbn [app]. rewrite !mutate_cons, bulk_then_assoc.
    destruct (turn st item) as [s1 r1]. cbn [bulk_then]. now rewrite IH.
Qed.

Lemma item_body_valid (st : Store) (item : CreateCustomerInput.t) :
  item_valid st item = true ->
  BulkCreateCustomers.item_body st item
  = Ok (customer_save st (CreateCustomerInput.name item)
          (CreateCustomerInput.email item) (CreateCustomerInput.phone item)).
Proof.
  unfold item_valid, item_fields_ok, phone_acceptable, BulkCreateCustomers.item_body,
  BulkCreateCustomers.invalid_phone.
  destruct (truthy (CreateCustomerInput.name item)); [|discriminate].
  destruct (truthy (CreateCustomerInput.email item)); [|discriminate].
  cbn [negb orb andb].
  destruct (CreateCustomerInput.phone item) as [ph|].
  - destruct (truthy ph), (is_valid_phone ph); cbn; try discriminate;
      destruct (customer_email_exists st _); cbn; now try discriminate.
  - destruct (customer_email_exists st _); cbn; now try discriminate.
Qed.

Lemma item_body_fields (st : Store) (item : CreateCustomerInput.t) :
  item_fields_ok item = false ->
  exists e, BulkCreateCustomers.item_body st item = Raise e /\
            (truthy (CreateCustomerInput.name item) &&
             truthy (CreateCustomerInput.email item) = false ->
             e = "Name and email are required fields."%string).
Proof.
  unfold item_fields_ok, phone_acceptable, BulkCreateCustomers.item_body,
  BulkCreateCustomers.invalid_phone.
  destruct (truthy (CreateCustomerInput.name item));
    [|intros _; eexists; split; [reflexivity|reflexivity]].
  destruct (truthy (CreateCustomerInput.email item));
    [|intros _; eexists; split; [reflexivity|reflexivity]].
  cbn [negb orb andb].
  destruct (CreateCustomerInput.phone item) as [ph|]; [|discriminate].
  destruct (truthy ph), (is_valid_phone ph); cbn; try discriminate.
  intros _. eexists. split; [reflexivity|discriminate].
Qed.

Lemma item_body_email (st : Store) (item : CreateCustomerInput.t) :
  item_fields_ok item = true ->
  customer_email_exists st (CreateCustomerInput.email item) = true ->
  BulkCreateCustomers.item_body st item = Raise (email_exists_message (CreateCustomerInput.email item)).
Proof.
  unfold item_fields_ok, phone_acceptable, BulkCreateCustomers.item_body,
  BulkCreateCustomers.invalid_phone, email_exists_message.
  destruct (truthy (CreateCustomerInput.name item)); [|discriminate].
  destruct (truthy (CreateCustomerInput.email item)); [|discriminate].
  cbn [negb orb andb]. intros Hp ->.
  destruct (CreateCustomerInput.phone item) as [ph|]; [|reflexivity].
  destruct (truthy ph), (is_valid_phone ph); cbn; try reflexivity; discriminate.
Qed.

(** The email message is raised by the email check only. *)
Lemma item_body_email_inv (st : Store) (item : CreateCustomerInput.t) :
  BulkCreateCustomers.item_body st item = Raise (email_exists_message (CreateCustomerInput.email item)) ->
  item_fields_ok item = true /\
  customer_email_exists st (CreateCustomerInput.email item) = true.
Proof.
  unfold item_fields_ok, phone_acceptable, BulkCreateCustomers.item_body,
  BulkCreateCustomers.invalid_phone, email_exists_message.
  destruct (truthy (CreateCustomerInput.name item)); [|discriminate].
  destruct (truthy (CreateCustomerInput.email item)); [|discriminate].
  cbn [negb orb andb].
  destruct (CreateCustomerInput.phone item) as [ph|].
  - destruct (truthy ph), (is_valid_phone ph); cbn; try discriminate;
      destruct (customer_email_exists st _); now try discriminate.
  - destruct (customer_email_exists st _); now try discriminate.
Qed.

Lemma item_body_cases (st : Store) (item : CreateCustomerInput.t) :
  if item_valid st item
  then BulkCreateCustomers.item_body st item
       = Ok (customer_save st (CreateCustomerInput.name item)
               (CreateCustomerInput.email item) (CreateCustomerInput.phone item))
  else exists e, BulkCreateCustomers.item_body st item = Raise e.
Proof.
  destruct (item_valid st item) eqn:V; [now apply item_body_valid|].
  unfold item_valid in V. apply andb_false_iff in V. destruct V as [V|V].
  - destruct (item_body_fields st item V) as (e & He & _). eauto.
  - destruct (item_fields_ok item) eqn:F.
    + apply negb_false_iff in V. rewrite (item_body_email st item F V). eauto.
    + destruct (item_body_fields st item F) as (e & He & _). eauto.
Qed.

Lemma turn_effect (st : Store) (item : CreateCustomerInput.t) :
  customers (fst (turn st item)) = (customers st ++ BulkCreateCustomers.customers (snd (turn st item)))%list /\
  products (fst (turn st item)) = products st /\
  orders (fst (turn st item)) = orders st /\
  List.length (BulkCreateCustomers.customers (snd (turn st item))) + List.length (BulkCreateCustomers.errors (snd (turn st item))) = 1.
Proof.
  unfold turn. pose proof (item_body_cases st item) as H.
  destruct (item_valid st item).
  - rewrite H. cbn. repeat split; reflexivity.
  - destruct H as (e & ->). cbn. rewrite app_nil_r. repeat split; reflexivity.
Qed.

Lemma mutate_effect (input : list CreateCustomerInput.t) (st : Store) :
  customers (fst (BulkCreateCustomers.mutate st input))
  = (customers st ++ BulkCreateCustomers.customers (snd (BulkCreateCustomers.mutate st input)))%list /\
  products (fst (BulkCreateCustomers.mutate st input)) = products st /\
  orders (fst (BulkCreateCustomers.mutate st input)) = orders st /\
  List.length (BulkCreateCustomers.customers (snd (BulkCreateCustomers.mutate st input)))
  + List.length (BulkCreateCustomers.errors (snd (BulkCreateCustomers.mutate st input))) = List.length input.
Proof.
  revert st. induction input as [|item rest IH]; intros st.
  - cbn. rewrite app_nil_r. repeat split; reflexivity.
  - rewrite mutate_cons. destruct (turn_effect st item) as (Hc & Hp & Ho & Hn).
    destruct (turn st item) as [s1 r1]. cbn [fst snd] in *.
    destruct (IH s1) as (Hc' & Hp' & Ho' & Hn').
    cbn [bulk_then]. destruct (BulkCreateCustomers.mutate s1 rest) as [s2 r2]. cbn [fst snd] in *.
    rewrite Hc', Hp', Ho', Hc, Hp, Ho, <- app_assoc.
    cbn [BulkCreateCustomers.customers BulkCreateCustomers.errors].
    rewrite !length_app. repeat split; try reflexivity. cbn [List.length]. lia.
Qed.

End BulkFacts.

Section BulkReports.

Lemma mutate_split (st : Store) (xs ys : list CreateCustomerInput.t)
    (item : CreateCustomerInput.t) :
  BulkCreateCustomers.mutate st (xs ++ item :: ys)
  = bulk_then (BulkCreateCustomers.mutate st xs)
      (fun s => bulk_then (turn s item) (fun s' => BulkCreateCustomers.mutate s' ys)).
Proof.
  rewrite mutate_app. destruct (BulkCreateCustomers.mutate st xs) as [s1 r1].
  cbn [bulk_then]. now rewrite mutate_cons.
Qed.

(** What the report of a batch holds of the item processed after [xs]. *)
Lemma mutate_split_report (st : Store) (xs ys : list CreateCustomerInput.t)
    (item : CreateCustomerInput.t) :
  let r := snd (BulkCreateCustomers.mutate st (xs ++ item :: ys)) in
  let t := snd (turn (fst (BulkCreateCustomers.mutate st xs)) item) in
  incl (BulkCreateCustomers.customers t) (BulkCreateCustomers.customers r) /\
  incl (BulkCreateCustomers.errors t) (BulkCreateCustomers.errors r).
Proof.
  cbv zeta. rewrite mutate_split.
  destruct (BulkCreateCustomers.mutate st xs) as [s1 r1]. cbn [bulk_then fst].
  destruct (turn s1 item) as [s2 r2]. cbn [bulk_then snd].
  destruct (BulkCreateCustomers.mutate s2 ys) as [s3 r3].
  cbn [snd BulkCreateCustomers.customers BulkCreateCustomers.errors].
  split; intros x Hx; apply in_or_app; right; apply in_or_app; now left.
Qed.

Lemma mutate_all_rejected (input : list CreateCustomerInput.t) (st : Store) :
  (forall item, In item input -> item_fields_ok item = false) ->
  fst (BulkCreateCustomers.mutate st input) = st /\
  BulkCreateCustomers.customers (snd (BulkCreateCustomers.mutate st input)) = [].
Proof.
  induction input as [|item rest IH]; intros H; [now split|].
  rewrite mutate_cons. unfold turn.
  destruct (item_body_fields st item (H item (or_introl eq_refl))) as (e & -> & _).
  cbn [bulk_then]. destruct IH as [Hs Hc]; [intros i Hi; apply H; now right|].
  destruct (BulkCreateCustomers.mutate st rest) as [s2 r2]. cbn [fst snd] in *.
  now subst.
Qed.

End BulkReports.

(** C4.  BulkCreateCustomers reports every item, in one of its two lists,
    and adds to the store exactly the customers it reports.  Each item is
    processed in the store its predecessors leave, whatever became of them:
    an item that passes the checks there is saved and reported as created,
    and an item that does not leaves the store as it is and one message
    among the errors, the required-fields message when its name or email is
    missing.  When no item passes, the created list is empty and the store
    unchanged.  The batch of A (with email and phone) and a nameless item,
    in a store without A's email, creates A and reports the required-fields
    message. *)
Theorem BulkCreateCustomers_isolates_failures (st : Store)
    (input : list CreateCustomerInput.t) :
  let st' := fst (BulkCreateCustomers.mutate st input) in
  let r := snd (BulkCreateCustomers.mutate st input) in
  (List.length (BulkCreateCustomers.customers r)
   + List.length (BulkCreateCustomers.errors r) = List.length input)%nat /\
  customers st' = customers st ++ BulkCreateCustomers.customers r /\
  (forall xs item ys, input = xs ++ item :: ys ->
     let st1 := fst (BulkCreateCustomers.mutate st xs) in
     BulkCreateCustomers.mutate st input
     = bulk_then (BulkCreateCustomers.mutate st xs)
         (fun s => bulk_then (turn s item) (fun s' => BulkCreateCustomers.mutate s' ys)) /\
     (item_valid st1 item = true ->
      let c := snd (customer_save st1 (CreateCustomerInput.name item)
                      (CreateCustomerInput.email item) (CreateCustomerInput.phone item)) in
      In c (BulkCreateCustomers.customers r) /\ In c (customers st')) /\
     (item_valid st1 item = false ->
      fst (turn st1 item) = st1 /\
      exists e, BulkCreateCustomers.item_body st1 item = Raise e /\
                In e (BulkCreateCustomers.errors r)) /\
     (truthy (CreateCustomerInput.name item) && truthy (CreateCustomerInput.email item) = false ->
      In "Name and email are required fields."%string (BulkCreateCustomers.errors r))) /\
  ((forall item, In item input -> item_fields_ok item = false) ->
   st' = st /\ BulkCreateCustomers.customers r = [] /\
   List.length (BulkCreateCustomers.errors r) = List.length input) /\
  (input = [sample_A; sample_nameless] -> customer_email_exists st "a@x.com" = false ->
   r = BulkCreateCustomers.Build
         [Customer.Build (next_pk (map Customer.id (customers st))) "A" "a@x.com"
            (Some "+15551234567"%string)]
         ["Name and email are required fields."%string]).
Proof.
  cbv zeta. destruct (mutate_effect input st) as (Hc & _ & _ & Hn).
  split; [exact Hn|]. split; [exact Hc|]. split; [|split].
  - intros xs item ys ->. split; [apply mutate_split|].
    destruct (mutate_split_report st xs ys item) as [Hic Hie].
    pose proof (item_body_cases (fst (BulkCreateCustomers.mutate st xs)) item) as Hcase.
    unfold turn in Hic, Hie |- *.
    split; [|split].
    + intros V. rewrite V in Hcase. rewrite Hcase in Hic.
      assert (Hin : In (snd (customer_save (fst (BulkCreateCustomers.mutate st xs))
                               (CreateCustomerInput.name item)
                               (CreateCustomerInput.email item)
                               (CreateCustomerInput.phone item)))
                      (BulkCreateCustomers.customers
                         (snd (BulkCreateCustomers.mutate st (xs ++ item :: ys))))).
      { apply Hic. cbn. now left. }
      split; [exact Hin|]. rewrite Hc. apply in_or_app. now right.
    + intros V. rewrite V in Hcase. destruct Hcase as (e & He).
      rewrite He in Hie |- *. split; [reflexivity|].
      exists e. split; [reflexivity|]. apply Hie. cbn. now left.
    + intros F.
      assert (Fo : item_fields_ok item = false).
      { unfold item_fields_ok. now rewrite F. }
      destruct (item_body_fields (fst (BulkCreateCustomers.mutate st xs)) item Fo)
        as (e & He & Hmsg).
      rewrite He in Hie. apply Hie. cbn. left. now apply Hmsg.
  - intros H. destruct (mutate_all_rejected input st H) as [Hs Hcs].
    split; [exact Hs|]. split; [exact Hcs|]. rewrite Hcs in Hn. exact Hn.
  - intros -> He. unfold BulkCreateCustomers.mutate, BulkCreateCustomers.loop.
    unfold BulkCreateCustomers.item_body. cbn [sample_A sample_nameless
      CreateCustomerInput.name CreateCustomerInput.email CreateCustomerInput.phone
      truthy negb orb andb].
    rewrite He. reflexivity.
Qed.

Lemma BulkCreateCustomers_isolates_failures_witness :
  snd (BulkCreateCustomers.mutate empty_store [sample_A; sample_nameless])
  = BulkCreateCustomers.Build
      [Customer.Build 1 "A" "a@x.com" (Some "+15551234567"%string)]
      ["Name and email are required fields."%string].
Proof.
  exact (proj2 (proj2 (proj2 (proj2
           (BulkCreateCustomers_isolates_failures empty_store
              [sample_A; sample_nameless])))) eq_refl eq_refl).
Defined.

(** C5, as stated, fails: in the empty store the email [a@x.com] is new, yet
    of two items of one batch that carry it the second is turned down with
    the email-already-exists message. *)
Lemma BulkCreateCustomers_sibling_email :
  customer_email_exists empty_store "a@x.com" = false /\
  BulkCreateCustomers.item_body
    (fst (BulkCreateCustomers.mutate empty_store [sample_A])) sample_same_email
  = Raise "A customer with email a@x.com already exists." /\
  snd (BulkCreateCustomers.mutate empty_store [sample_A; sample_same_email])
  = BulkCreateCustomers.Build
      [Customer.Build 1 "A" "a@x.com" (Some "+15551234567"%string)]
      ["A customer with email a@x.com already exists."%string].
Proof. repeat split; reflexivity. Qed.

(** C5, amended.  An item gets the email-already-exists message exactly when
    it passes the name, email and phone checks and its email is that of a
    customer in the store at the moment the item is processed: one that was
    there before the call, or one created by an earlier item of the batch.
    So of two items next to each other that share an email, the first being
    accepted, the second, passing the field checks, gets that message. *)
Theorem BulkCreateCustomers_email_check (st : Store)
    (xs : list CreateCustomerInput.t) (item : CreateCustomerInput.t) :
  let st1 := fst (BulkCreateCustomers.mutate st xs) in
  let created := BulkCreateCustomers.customers (snd (BulkCreateCustomers.mutate st xs)) in
  let email := CreateCustomerInput.email item in
  (BulkCreateCustomers.item_body st1 item = Raise (email_exists_message email)
   <-> item_fields_ok item = true /\
       exists c, In c (customers st ++ created) /\ Customer.email c = email) /\
  (forall second,
     item_valid st1 item = true -> item_fields_ok second = true ->
     CreateCustomerInput.email second = email ->
     snd (BulkCreateCustomers.mutate st1 [item; second])
     = BulkCreateCustomers.Build
         [snd (customer_save st1 (CreateCustomerInput.name item) email
                 (CreateCustomerInput.phone item))]
         [email_exists_message email]).
Proof.
  cbv zeta. destruct (mutate_effect xs st) as (Hc & _). rewrite <- Hc. split.
  - rewrite <- customer_email_exists_In. split.
    + apply item_body_email_inv.
    + intros [F E]. now apply item_body_email.
  - intros second V F E.
    rewrite mutate_cons. unfold turn at 1. rewrite (item_body_valid _ _ V).
    destruct (customer_save (fst (BulkCreateCustomers.mutate st xs))
                (CreateCustomerInput.name item) (CreateCustomerInput.email item)
                (CreateCustomerInput.phone item)) as [s2 c] eqn:S.
    cbn [bulk_then]. rewrite mutate_cons. unfold turn.
    assert (X : customer_email_exists s2 (CreateCustomerInput.email second) = true).
    { apply (f_equal fst) in S. cbn [fst] in S. rewrite <- S, email_exists_snoc, E.
      rewrite String.eqb_refl. apply orb_true_r. }
    rewrite (item_body_email _ _ F X), E. reflexivity.
Qed.

Lemma BulkCreateCustomers_email_check_witness :
  snd (BulkCreateCustomers.mutate empty_store [sample_A; sample_same_email])
  = BulkCreateCustomers.Build
      [Customer.Build 1 "A" "a@x.com" (Some "+15551234567"%string)]
      ["A customer with email a@x.com already exists."%string].
Proof.
  exact (proj2 (BulkCreateCustomers_email_check empty_store [] sample_A)
           sample_same_email eq_refl eq_refl eq_refl).
Defined.

(** C8, at the input that breaks it: starting from the empty store, whose
    phones are trivially distinct, the batch of two items with different
    emails and the same phone reports no error and leaves two customers
    with that phone; CreateCustomer, given the second item after the first,
    turns it down. *)
Theorem BulkCreateCustomers_repeats_phone :
  let batch := [sample_A; sample_same_phone] in
  let st' := fst (BulkCreateCustomers.mutate empty_store batch) in
  phones_unique empty_store /\
  BulkCreateCustomers.errors (snd (BulkCreateCustomers.mutate empty_store batch)) = [] /\
  present_phones st' = ["+15551234567"%string; "+15551234567"%string] /\
  ~ phones_unique st' /\
  raises (CreateCustomer.mutate (fst (BulkCreateCustomers.mutate empty_store [sample_A]))
            sample_same_phone)
    ConflictError "A customer with this phone number already exists.".
Proof.
  cbv zeta. split; [constructor|]. split; [reflexivity|]. split; [reflexivity|].
  split; [|now split].
  unfold phones_unique.
  change (present_phones (fst (BulkCreateCustomers.mutate empty_store
                                 [sample_A; sample_same_phone])))
    with ["+15551234567"%string; "+15551234567"%string].
  intros H. inversion H as [|? ? Hn _]. apply Hn. now left.
Qed.

(** ** CreateOrder *)

Section CreateOrderFacts.

Variables (now : Z) (st : Store) (input : CreateOrderInput.t).

Let ids := CreateOrderInput.product_ids input.
Let resolved := products_id_in st ids.
Let date := match CreateOrderInput.order_date input with
            | Some d => d
            | None => now
            end.

(** The only way out of [mutate] with a result. *)
Lemma CreateOrder_Ok_inv (st' : Store) (r : CreateOrder.t) :
  CreateOrder.mutate now st input = Ok (st', r) ->
  exists customer,
    ids <> [] /\
    customer_get st (CreateOrderInput.customer_id input) = Some customer /\
    resolved <> [] /\
    List.length resolved = List.length ids /\
    (st', CreateOrder.order r)
    = order_save st customer (CreateOrder.sum (map Product.price resolved)) date resolved.
Proof.
  unfold CreateOrder.mutate. fold ids. fold resolved. fold date.
  destruct ids as [|i0 ids0] eqn:Eids; [discriminate|].
  destruct (customer_get st (CreateOrderInput.customer_id input)) as [customer|];
    [|discriminate].
  destruct resolved as [|p0 ps] eqn:Eres; [discriminate|].
  destruct (List.length (p0 :: ps) =? List.length (i0 :: ids0))%nat eqn:Elen;
    [|discriminate].
  cbn [negb]. intros H. injection H as <- <-.
  exists customer. repeat split; try discriminate.
  now apply Nat.eqb_eq.
Qed.

(** What a call that succeeds returns and stores. *)
Lemma CreateOrder_Ok_order (st' : Store) (r : CreateOrder.t) :
  CreateOrder.mutate now st input = Ok (st', r) ->
  CreateOrder.order r
  = Order.Build (next_pk (map Order.id (orders st)))
      (CreateOrderInput.customer_id input)
      (CreateOrder.sum (map Product.price resolved)) date (map Product.id resolved) /\
  st' = mkStore (customers st) (products st) (orders st ++ [CreateOrder.order r]).
Proof.
  intros H. apply CreateOrder_Ok_inv in H.
  destruct H as (customer & _ & Hc & _ & _ & H).
  unfold order_save in H. injection H as -> ->.
  apply find_some in Hc. destruct Hc as [_ Hc]. apply Z.eqb_eq in Hc.
  rewrite Hc. now split.
Qed.

(** A request of distinct keys of existing products, for an existing
    customer, goes through. *)
Lemma CreateOrder_succeeds (customer : Customer.t) :
  store_wf st -> ids <> [] -> NoDup ids ->
  customer_get st (CreateOrderInput.customer_id input) = Some customer ->
  (forall i, In i ids -> exists p, In p (products st) /\ Product.id p = i) ->
  exists st' r, CreateOrder.mutate now st input = Ok (st', r).
Proof.
  intros Hwf Hne Hnd Hc Hex.
  pose proof (products_id_in_all Hwf Hnd Hex) as Hlen. fold resolved in Hlen.
  unfold CreateOrder.mutate. fold ids. fold resolved. rewrite Hc.
  destruct ids as [|i0 ids0] eqn:Eids; [contradiction|].
  destruct resolved as [|p0 ps] eqn:Eres; [discriminate|].
  rewrite Hlen, Nat.eqb_refl. cbn [negb]. unfold order_save. eauto.
Qed.

(** The count check, once the earlier checks are passed. *)
Lemma CreateOrder_mismatch :
  ids <> [] ->
  customer_get st (CreateOrderInput.customer_id input) <> None ->
  resolved <> [] ->
  List.length resolved <> List.length ids ->
  CreateOrder.mutate now st input
  = Raise "Some product IDs are invalid or do not exist.".
Proof.
  unfold CreateOrder.mutate. fold ids. fold resolved.
  intros Hne Hc Hres Hlen.
  destruct ids as [|i0 ids0]; [contradiction|].
  destruct (customer_get st (CreateOrderInput.customer_id input)); [|contradiction].
  destruct resolved as [|p0 ps]; [contradiction|].
  apply Nat.eqb_neq in Hlen. now rewrite Hlen.
Qed.

End CreateOrderFacts.

(** C1.  A CreateOrder call that succeeds yields an order whose total is the
    sum of the prices, as they are in the store at the call, of the products
    the requested ids resolve to, and whose date is the supplied [orderDate],
    or the time of the call when none is supplied; that order, with its
    product rows, is what the call adds to the store. *)
Theorem CreateOrder_total_and_date (now : Z) (st st' : Store)
    (input : CreateOrderInput.t) (r : CreateOrder.t) :
  CreateOrder.mutate now st input = Ok (st', r) ->
  let o := CreateOrder.order r in
  let resolved := products_id_in st (CreateOrderInput.product_ids input) in
  Order.total_amount o = CreateOrder.sum (map Product.price resolved) /\
  Order.total_amount o = fold_right Z.add 0%Z (map Product.price resolved) /\
  Order.order_date o = match CreateOrderInput.order_date input with
                       | Some d => d
                       | None => now
                       end /\
  Order.product o = map Product.id resolved /\
  orders st' = orders st ++ [o] /\
  products st' = products st /\ customers st' = customers st.
Proof.
  intros H. apply CreateOrder_Ok_order in H. destruct H as [Ho Hs].
  cbv zeta. rewrite Hs. cbn [orders products customers].
  rewrite <- sum_fold_right, Ho. cbn. repeat split; reflexivity.
Qed.

Lemma CreateOrder_total_and_date_witness :
  exists st' r,
    CreateOrder.mutate 77 sample_store sample_order = Ok (st', r) /\
    Order.total_amount (CreateOrder.order r) = 350%Z /\
    Order.order_date (CreateOrder.order r) = 77%Z.
Proof.
  cbv zeta.
  let v := eval vm_compute in
    (CreateOrder.mutate 77 sample_store sample_order) in
  match v with
  | Ok (?s, ?r) =>
      exists s, r; split; [reflexivity|];
      pose proof (@CreateOrder_total_and_date 77 sample_store s sample_order r eq_refl) as H
  end.
  cbv zeta in H. destruct H as (Ht & _ & Hd & _). split; [exact Ht|exact Hd].
Defined.

(** On ids that are keys, CreateOrder fails in this order: with
    ValidationError on an empty list of ids; with NotFoundError when the
    customer key names no customer; with NotFoundError when no product
    matches; with ValidationError when the number of products found differs
    from the number of keys requested.  A request that repeats the key of an
    existing product is of the last kind: the lookup yields the product
    once. *)
Theorem CreateOrder_failures (now : Z) (st : Store) (input : CreateOrderInput.t) :
  let ids := CreateOrderInput.product_ids input in
  let found := customer_get st (CreateOrderInput.customer_id input) in
  let resolved := products_id_in st ids in
  let outcome := CreateOrder.mutate now st input in
  (ids = [] ->
   raises outcome ValidationError "At least one product ID must be provided.") /\
  (ids <> [] -> found = None ->
   raises outcome NotFoundError "Invalid customer ID.") /\
  (ids <> [] -> found <> None -> resolved = [] ->
   raises outcome NotFoundError "No products found with the provided IDs.") /\
  (ids <> [] -> found <> None -> resolved <> [] ->
   List.length resolved <> List.length ids ->
   raises outcome ValidationError "Some product IDs are invalid or do not exist.") /\
  (forall p, store_wf st -> found <> None ->
   In p (products st) -> (2 <= count_occ Z.eq_dec ids (Product.id p))%nat ->
   raises outcome ValidationError "Some product IDs are invalid or do not exist.").
Proof.
  cbv zeta. unfold raises.
  split; [|split; [|split; [|split]]].
  - unfold CreateOrder.mutate. intros ->. now split.
  - unfold CreateOrder.mutate. intros Hne ->.
    destruct (CreateOrderInput.product_ids input); [contradiction|now split].
  - unfold CreateOrder.mutate. intros Hne Hc ->.
    destruct (CreateOrderInput.product_ids input); [contradiction|].
    destruct (customer_get st (CreateOrderInput.customer_id input)); [now split|contradiction].
  - intros Hne Hc Hres Hlen. split; [|reflexivity]. now apply CreateOrder_mismatch.
  - intros p Hwf Hc Hp Hocc. split; [|reflexivity].
    assert (Hin : In (Product.id p) (CreateOrderInput.product_ids input)).
    { apply (count_occ_In Z.eq_dec). lia. }
    apply CreateOrder_mismatch.
    + intros E. rewrite E in Hin. contradiction.
    + assumption.
    + intros E. pose proof (products_id_in_complete st _ p Hp Hin) as H.
      rewrite E in H. contradiction.
    + apply products_id_in_duplicate; [assumption|].
      intros Hnd. rewrite (NoDup_count_occ Z.eq_dec) in Hnd.
      specialize (Hnd (Product.id p)). lia.
Qed.

(** C6.  The total of an order is fixed when the order is created: whatever
    prices the products are given afterwards, the order stored under the new
    order's key is the order the call returned, and the total it resolves to
    is the sum of the prices the products had in the store of the call. *)
Theorem order_total_frozen (now : Z) (st st' : Store) (input : CreateOrderInput.t)
    (r : CreateOrder.t) (changes : list (Z * Z)) :
  CreateOrder.mutate now st input = Ok (st', r) ->
  let o := CreateOrder.order r in
  let later := price_changes st' changes in
  order_get later (Order.id o) = Some o /\
  OrderType.resolve_total_amount o
  = CreateOrder.sum
      (map Product.price (products_id_in st (CreateOrderInput.product_ids input))).
Proof.
  intros H. cbv zeta. apply CreateOrder_Ok_order in H. destruct H as [Ho Hs].
  split; [|now rewrite Ho].
  unfold order_get. rewrite (proj1 (price_changes_orders changes st')), Hs.
  cbn [orders]. apply find_snoc_fresh. intros x Hx.
  rewrite Ho. cbn [Order.id].
  apply (in_map Order.id) in Hx. apply next_pk_above in Hx. lia.
Qed.

Lemma order_total_frozen_witness :
  exists st' r,
    CreateOrder.mutate 77 sample_store sample_order = Ok (st', r) /\
    let later := price_changes st' [(1%Z, 999%Z)] in
    map Product.price (products later) = [999%Z; 100%Z] /\
    option_map OrderType.resolve_total_amount (order_get later (Order.id (CreateOrder.order r)))
    = Some 350%Z.
Proof.
  cbv zeta.
  let v := eval vm_compute in
    (CreateOrder.mutate 77 sample_store sample_order) in
  match v with
  | Ok (?s, ?r) =>
      exists s, r; split; [reflexivity|]; split; [reflexivity|];
      pose proof (@order_total_frozen 77 sample_store s sample_order r
                    [(1%Z, 999%Z)] eq_refl) as H
  end.
  cbv zeta in H. destruct H as [Hg Ht]. rewrite Hg. cbn [option_map]. now rewrite Ht.
Defined.

(** ** The filter sets *)

Section Filters.

Lemma Filter_None (A R : Type) (f : A -> list R -> list R) (qs : list R) :
  django_filters.Filter None f qs = qs.
Proof. reflexivity. Qed.

Lemma in_join_product (cond : Z -> bool) (qs : list Order.t) (o : Order.t) :
  In o (OrderFilter.join_product cond qs) <->
  In o qs /\ exists pid, In pid (Order.product o) /\ cond pid = true.
Proof.
  unfold OrderFilter.join_product. rewrite in_flat_map. split.
  - intros (o' & Ho' & Hin). apply in_map_iff in Hin.
    destruct Hin as (pid & -> & Hpid). apply filter_In in Hpid.
    split; [assumption|]. exists pid. exact Hpid.
  - intros (Ho & pid & Hpid & Hc). exists o. split; [assumption|].
    apply in_map_iff. exists pid. split; [reflexivity|].
    apply filter_In. split; assumption.
Qed.

Lemma join_product_nil (cond : Z -> bool) (qs : list Order.t) :
  (forall o pid, In o qs -> In pid (Order.product o) -> cond pid = false) ->
  OrderFilter.join_product cond qs = [].
Proof.
  intros H. destruct (OrderFilter.join_product cond qs) as [|o l] eqn:E; [reflexivity|].
  assert (Hin : In o (OrderFilter.join_product cond qs)) by (rewrite E; now left).
  apply in_join_product in Hin. destruct Hin as (Ho & pid & Hpid & Hc).
  rewrite (H o pid Ho Hpid) in Hc. discriminate.
Qed.

End Filters.

(** C9.  With [lowStock=true] the product filter keeps, of what the other
    filters yield, exactly the products whose stock is below 10; with every
    other filter unset that is exactly the products of the queryset whose
    stock is below 10; [lowStock] false or absent keeps everything. *)
Theorem ProductFilter_low_stock (d : ProductFilter.data) (qs : list Product.t) :
  let low := fun p => (Product.stock p <? 10)%Z in
  let others v := ProductFilter.with_low_stock d v in
  let alone v := ProductFilter.with_low_stock ProductFilter.unset v in
  ProductFilter.filter_queryset (others (Some true)) qs
    = filter low (ProductFilter.filter_queryset (others None) qs) /\
  ProductFilter.filter_queryset (alone (Some true)) qs = filter low qs /\
  (forall p, In p (ProductFilter.filter_queryset (alone (Some true)) qs)
             <-> In p qs /\ (Product.stock p < 10)%Z) /\
  ProductFilter.filter_queryset (others (Some false)) qs
    = ProductFilter.filter_queryset (others None) qs /\
  ProductFilter.filter_queryset (alone (Some false)) qs = qs /\
  ProductFilter.filter_queryset (alone None) qs = qs.
Proof.
  cbv zeta. split; [reflexivity|]. split; [reflexivity|].
  split; [|repeat split; reflexivity].
  intros p. change (ProductFilter.filter_queryset _ qs)
    with (filter (fun p => (Product.stock p <? 10)%Z) qs).
  rewrite filter_In, Z.ltb_lt. tauto.
Qed.

(** C10.  A [productId] of 0 is falsy and filters nothing: the order filter
    yields what it yields without [productId], and on its own it returns the
    queryset as it is, where the lookup [product__id=0] would return nothing
    when no order holds a product 0.  A non-zero [productId] keeps exactly the
    orders that hold that product. *)
Theorem OrderFilter_product_id_zero (st : Store) (d : OrderFilter.data)
    (qs : list Order.t) :
  let others v := OrderFilter.with_product_id d v in
  let alone v := OrderFilter.with_product_id OrderFilter.unset v in
  OrderFilter.filter_queryset st (others (Some 0%Z)) qs
    = OrderFilter.filter_queryset st (others None) qs /\
  OrderFilter.filter_queryset st (alone (Some 0%Z)) qs = qs /\
  ((forall o, In o qs -> ~ In 0%Z (Order.product o)) ->
   OrderFilter.join_product (fun pid => (pid =? 0)%Z) qs = []) /\
  (forall v o, v <> 0%Z ->
     (In o (OrderFilter.filter_queryset st (others (Some v)) qs)
      <-> In o (OrderFilter.filter_queryset st (others None) qs) /\ In v (Order.product o))).
Proof.
  cbv zeta. split; [reflexivity|]. split; [reflexivity|]. split.
  - intros H. apply join_product_nil. intros o pid Ho Hpid.
    destruct (Z.eqb_spec pid 0); [subst pid; now apply H in Hpid|reflexivity].
  - intros v o Hv.
    unfold OrderFilter.filter_queryset, OrderFilter.with_product_id. cbn.
    unfold OrderFilter.filter_product_id.
    destruct (Z.eqb_spec v 0); [contradiction|].
    rewrite in_join_product. split.
    + intros (Hin & pid & Hpid & Hc). apply Z.eqb_eq in Hc. subst pid. tauto.
    + intros [Hin Hp]. split; [exact Hin|]. exists v. split; [assumption|].
      apply Z.eqb_refl.
Qed.

(* ================================================================== *)
(** * Part III. Further properties of the code                          *)
(* ================================================================== *)

(** ** The validator: bounds *)

Section PhoneBounds.

Lemma chomp_length (s : string) :
  (String.length (chomp s) <= String.length s <= S (String.length (chomp s)))%nat.
Proof.
  induction s as [|c s IH]; [cbn; lia|].
  destruct s as [|c' s'].
  - cbn -[re.LF]. destruct (Ascii.eqb c re.LF); cbn; lia.
  - change (chomp (String c (String c' s'))) with (String c (chomp (String c' s'))).
    cbn [String.length] in *. lia.
Qed.

Lemma chomp_head (s : string) (c : ascii) (r : string) :
  chomp s = String c r -> exists r', s = String c r'.
Proof.
  destruct s as [|c0 [|c' s']]; [discriminate| |].
  - cbn -[re.LF]. destruct (Ascii.eqb c0 re.LF); [discriminate|].
    intros H. injection H as -> _. eauto.
  - change (chomp (String c0 (String c' s'))) with (String c0 (chomp (String c' s'))).
    intros H. injection H as -> _. eauto.
Qed.

Lemma digits_shape_length (s : string) :
  digits_shape s = true -> (2 <= String.length s <= 15)%nat.
Proof.
  destruct s as [|d rest]; [discriminate|]. unfold digits_shape.
  intros H. apply andb_true_iff in H. destruct H as [H H15].
  apply andb_true_iff in H. destruct H as [_ H2].
  apply Nat.leb_le in H2, H15. lia.
Qed.

Lemma digits_shape_head (s : string) :
  digits_shape s = true -> exists d rest, s = String d rest /\ re.in_range "1" "9" d = true.
Proof.
  destruct s as [|d rest]; [discriminate|]. unfold digits_shape.
  intros H. exists d, rest. split; [reflexivity|].
  destruct (re.in_range "1" "9" d); [reflexivity|discriminate].
Qed.

End PhoneBounds.

(** An accepted phone has between 2 and 17 characters (15 digits at most,
    one sign, one final newline) and begins with [+] or a digit 1-9; after a
    [+] comes a digit 1-9. *)
Theorem is_valid_phone_bounds (s : string) :
  is_valid_phone s = true ->
  (2 <= String.length s <= 17)%nat /\
  exists c rest, s = String c rest /\
    ((c = "+"%char /\ exists d rest', rest = String d rest' /\ re.in_range "1" "9" d = true)
     \/ re.in_range "1" "9" c = true).
Proof.
  rewrite match_phone_pattern. intros H.
  pose proof (chomp_length s) as Hlen.
  destruct (chomp s) as [|c r] eqn:E; [discriminate|].
  destruct (chomp_head s E) as (r' & ->).
  cbn [phone_shape] in H. destruct (Ascii.eqb_spec c "+") as [->|Hc].
  - pose proof (digits_shape_length _ H) as Hd. cbn [String.length] in *.
    split; [lia|]. exists "+"%char, r'. split; [reflexivity|]. left.
    split; [reflexivity|].
    destruct (digits_shape_head _ H) as (d & rest & -> & Hr).
    destruct r' as [|c2 r2].
    + cbn -[re.LF] in E. destruct (Ascii.eqb "+" re.LF); discriminate.
    + change (chomp (String "+" (String c2 r2)))
        with (String "+"%char (chomp (String c2 r2))) in E.
      injection E as E. destruct (@chomp_head (String c2 r2) d rest E) as (r3 & Hr3).
      injection Hr3 as -> ->. eauto.
  - pose proof (digits_shape_length _ H) as Hd. cbn [String.length] in *.
    split; [lia|]. exists c, r'. split; [reflexivity|]. right.
    destruct (digits_shape_head _ H) as (d & rest & Hs & Hr).
    injection Hs as -> _. exact Hr.
Qed.

Lemma is_valid_phone_bounds_witness :
  (2 <= String.length "+15551234567" <= 17)%nat.
Proof.
  exact (proj1 (is_valid_phone_bounds "+15551234567" eq_refl)).
Defined.

(** ** Invariants of the customer mutations *)

Section CustomerInvariants.

Lemma fst_bulk_then (a : Store * BulkCreateCustomers.t)
    (f : Store -> Store * BulkCreateCustomers.t) :
  fst (bulk_then a f) = fst (f (fst a)).
Proof. destruct a as [s1 r1]. cbn. now destruct (f s1). Qed.

Lemma snd_bulk_then (a : Store * BulkCreateCustomers.t)
    (f : Store -> Store * BulkCreateCustomers.t) :
  snd (bulk_then a f)
  = BulkCreateCustomers.Build
      (BulkCreateCustomers.customers (snd a)
       ++ BulkCreateCustomers.customers (snd (f (fst a))))
      (BulkCreateCustomers.errors (snd a)
       ++ BulkCreateCustomers.errors (snd (f (fst a)))).
Proof. destruct a as [s1 r1]. cbn. now destruct (f s1). Qed.

(** The only way out of the body of the [try] with a customer. *)
Lemma item_body_Ok_inv (st st' : Store) (item : CreateCustomerInput.t) (c : Customer.t) :
  BulkCreateCustomers.item_body st item = Ok (st', c) ->
  item_valid st item = true /\
  (st', c) = customer_save st (CreateCustomerInput.name item)
               (CreateCustomerInput.email item) (CreateCustomerInput.phone item).
Proof.
  intros H. pose proof (item_body_cases st item) as Hc.
  destruct (item_valid st item).
  - rewrite Hc in H. injection H as <- <-. now split.
  - destruct Hc as (e & He). rewrite He in H. discriminate.
Qed.

Lemma turn_cases (st : Store) (item : CreateCustomerInput.t) :
  if item_valid st item
  then turn st item
       = (fst (customer_save st (CreateCustomerInput.name item)
                 (CreateCustomerInput.email item) (CreateCustomerInput.phone item)),
          BulkCreateCustomers.Build
            [snd (customer_save st (CreateCustomerInput.name item)
                    (CreateCustomerInput.email item) (CreateCustomerInput.phone item))] [])
  else exists e, turn st item = (st, BulkCreateCustomers.Build [] [e]).
Proof.
  unfold turn. pose proof (item_body_cases st item) as Hc.
  destruct (item_valid st item).
  - now rewrite Hc.
  - destruct Hc as (e & ->). eauto.
Qed.

(** A property of stores that every accepted save keeps is kept by the
    whole batch. *)
Lemma mutate_invariant (P : Store -> Prop) :
  (forall s item, P s -> item_valid s item = true ->
     P (fst (customer_save s (CreateCustomerInput.name item)
               (CreateCustomerInput.email item) (CreateCustomerInput.phone item)))) ->
  forall input st, P st -> P (fst (BulkCreateCustomers.mutate st input)).
Proof.
  intros Hstep. induction input as [|item rest IH]; intros st HP; [exact HP|].
  rewrite mutate_cons, fst_bulk_then. apply IH.
  pose proof (turn_cases st item) as Hc. destruct (item_valid st item) eqn:V.
  - rewrite Hc. cbn [fst]. now apply Hstep.
  - destruct Hc as (e & ->). exact HP.
Qed.

Lemma email_not_exists_notin (st : Store) (e : string) :
  customer_email_exists st e = false -> ~ In e (map Customer.email (customers st)).
Proof.
  intros H Hin. apply in_map_iff in Hin. destruct Hin as (c & Hc & Hin).
  assert (X : customer_email_exists st e = true).
  { apply customer_email_exists_In. eauto. }
  congruence.
Qed.

Lemma customer_save_emails_unique (st : Store) (name email : string)
    (phone : option string) :
  emails_unique st -> customer_email_exists st email = false ->
  emails_unique (fst (customer_save st name email phone)).
Proof.
  intros Hu He. unfold emails_unique, customer_save. cbn [fst customers].
  rewrite map_app. cbn [map Customer.email].
  apply NoDup_snoc; [exact Hu|]. now apply email_not_exists_notin.
Qed.

Lemma customer_save_wf (st : Store) (name email : string) (phone : option string) :
  store_wf st -> store_wf (fst (customer_save st name email phone)).
Proof.
  intros (Hc & Hp & Ho). unfold store_wf, customer_save. cbn [fst customers products orders].
  repeat split; try assumption.
  rewrite map_app. cbn [map Customer.id].
  apply NoDup_snoc; [exact Hc|apply next_pk_fresh].
Qed.

Lemma product_save_inv (column_value : QArith_base.Q -> option Z) (st st' : Store)
    (name : string) (price : QArith_base.Q) (stock : Z) (p : Product.t) :
  product_save column_value st name price stock = Some (st', p) ->
  exists units,
    column_value price = Some units /\
    p = Product.Build (next_pk (map Product.id (products st))) name units stock /\
    st' = mkStore (customers st) (products st ++ [p]) (orders st).
Proof.
  unfold product_save. destruct (column_value price) as [units|]; [|discriminate].
  intros H. injection H as <- <-. exists units. now repeat split.
Qed.

Lemma product_save_wf (column_value : QArith_base.Q -> option Z) (st st' : Store)
    (name : string) (price : QArith_base.Q) (stock : Z) (p : Product.t) :
  product_save column_value st name price stock = Some (st', p) ->
  store_wf st -> store_wf st'.
Proof.
  intros H (Hc & Hp & Ho). apply product_save_inv in H.
  destruct H as (units & _ & -> & ->).
  unfold store_wf. cbn [customers products orders].
  repeat split; try assumption.
  rewrite map_app. cbn [map Product.id].
  apply NoDup_snoc; [exact Hp|apply next_pk_fresh].
Qed.

(** The only way out of [CreateProduct.mutate] with a result. *)
Lemma CreateProduct_Ok_inv (column_value : QArith_base.Q -> option Z) (st st' : Store)
    (input : CreateProductInput.t) (r : CreateProduct.t) :
  CreateProduct.mutate column_value st input = Done (Ok (st', r)) ->
  CreateProduct.le_0 (CreateProductInput.price input) = false /\
  (0 <= CreateProduct.stock_or_0 (CreateProductInput.stock input))%Z /\
  product_save column_value st (CreateProductInput.name input)
    (CreateProductInput.price input)
    (CreateProduct.stock_or_0 (CreateProductInput.stock input))
  = Some (st', CreateProduct.product r) /\
  CreateProduct.price r = CreateProductInput.price input /\
  CreateProduct.message r = "Product created successfully."%string.
Proof.
  unfold CreateProduct.mutate.
  destruct (CreateProduct.le_0 (CreateProductInput.price input)); [discriminate|].
  destruct (Z.ltb_spec (CreateProduct.stock_or_0 (CreateProductInput.stock input)) 0);
    [discriminate|].
  destruct (product_save column_value st _ _ _) as [[s2 p]|]; [|discriminate].
  intros E. injection E as <- <-. now repeat split.
Qed.

End CustomerInvariants.

(** Customer emails stay pairwise distinct under both customer mutations:
    after a CreateCustomer that succeeds, and after a BulkCreateCustomers
    whatever its batch. *)
Theorem emails_stay_unique (st : Store) :
  emails_unique st ->
  (forall input st' r,
     CreateCustomer.mutate st input = Ok (st', r) -> emails_unique st') /\
  (forall input, emails_unique (fst (BulkCreateCustomers.mutate st input))).
Proof.
  intros Hu. split.
  - intros input st' r H. apply CreateCustomer_Ok_inv in H.
    destruct H as (ph & _ & _ & He & _ & H & _).
    apply (f_equal fst) in H. cbn [fst] in H. rewrite H.
    now apply customer_save_emails_unique.
  - intros input. apply (@mutate_invariant emails_unique); [|exact Hu].
    intros s item Hs V. apply customer_save_emails_unique; [exact Hs|].
    unfold item_valid in V. apply andb_true_iff in V. destruct V as [_ V].
    now apply negb_true_iff in V.
Qed.

Lemma emails_stay_unique_witness :
  emails_unique
    (fst (BulkCreateCustomers.mutate empty_store [sample_A; sample_same_email])).
Proof.
  exact (proj2 (@emails_stay_unique empty_store (NoDup_nil string))
           [sample_A; sample_same_email]).
Defined.

(** Primary keys stay unique within each table under every mutation: the
    row a mutation adds gets a key that no row of its table has. *)
Theorem keys_stay_unique (st : Store) :
  store_wf st ->
  (forall input st' r, CreateCustomer.mutate st input = Ok (st', r) -> store_wf st') /\
  (forall input, store_wf (fst (BulkCreateCustomers.mutate st input))) /\
  (forall column_value input st' r,
     CreateProduct.mutate column_value st input = Done (Ok (st', r)) -> store_wf st') /\
  (forall now input st' r, CreateOrder.mutate now st input = Ok (st', r) -> store_wf st').
Proof.
  intros Hwf. split; [|split; [|split]].
  - intros input st' r H. apply CreateCustomer_Ok_inv in H.
    destruct H as (ph & _ & _ & _ & _ & H & _).
    apply (f_equal fst) in H. cbn [fst] in H. rewrite H. now apply customer_save_wf.
  - intros input. apply (@mutate_invariant store_wf); [|exact Hwf].
    intros s item Hs _. now apply customer_save_wf.
  - intros column_value input st' r H. apply CreateProduct_Ok_inv in H.
    destruct H as (_ & _ & H & _). eapply product_save_wf; eassumption.
  - intros now input st' r H. apply CreateOrder_Ok_order in H. destruct H as [Ho ->].
    destruct Hwf as (Hc & Hp & Hor). unfold store_wf. cbn [customers products orders].
    repeat split; try assumption.
    rewrite map_app. cbn [map]. apply NoDup_snoc; [exact Hor|].
    rewrite Ho. cbn [Order.id]. apply next_pk_fresh.
Qed.

Lemma keys_stay_unique_witness :
  store_wf (fst (BulkCreateCustomers.mutate empty_store [sample_A; sample_same_phone])).
Proof.
  refine (proj1 (proj2 (@keys_stay_unique empty_store _)) [sample_A; sample_same_phone]).
  repeat split; constructor.
Defined.

(** ** What a batch creates *)

Section BulkCreated.

Lemma turn_email_mono (st : Store) (item : CreateCustomerInput.t) (e : string) :
  customer_email_exists st e = true ->
  customer_email_exists (fst (turn st item)) e = true.
Proof.
  intros H. pose proof (turn_cases st item) as Hc. destruct (item_valid st item).
  - rewrite Hc. cbn [fst]. rewrite email_exists_snoc, H. reflexivity.
  - destruct Hc as (m & ->). exact H.
Qed.

Lemma mutate_email_mono (input : list CreateCustomerInput.t) (st : Store) (e : string) :
  customer_email_exists st e = true ->
  customer_email_exists (fst (BulkCreateCustomers.mutate st input)) e = true.
Proof.
  revert st. induction input as [|item rest IH]; intros st H; [exact H|].
  rewrite mutate_cons, fst_bulk_then. apply IH. now apply turn_email_mono.
Qed.

(** Once an item with acceptable fields has had its turn, its email is in
    the store: it was there, or the item has just been saved. *)
Lemma turn_email (st : Store) (item : CreateCustomerInput.t) :
  item_fields_ok item = true ->
  customer_email_exists (fst (turn st item)) (CreateCustomerInput.email item) = true.
Proof.
  intros F. pose proof (turn_cases st item) as Hc.
  destruct (item_valid st item) eqn:V.
  - rewrite Hc. cbn [fst]. rewrite email_exists_snoc, String.eqb_refl. apply orb_true_r.
  - destruct Hc as (m & ->). cbn [fst]. unfold item_valid in V. rewrite F in V.
    cbn [andb] in V. now apply negb_false_iff in V.
Qed.

Lemma mutate_none_valid (input : list CreateCustomerInput.t) (st : Store) :
  (forall item, In item input -> item_valid st item = false) ->
  fst (BulkCreateCustomers.mutate st input) = st /\
  BulkCreateCustomers.customers (snd (BulkCreateCustomers.mutate st input)) = [].
Proof.
  induction input as [|item rest IH]; intros H; [now split|].
  rewrite mutate_cons, fst_bulk_then, snd_bulk_then.
  pose proof (turn_cases st item) as Hc. rewrite (H item (or_introl eq_refl)) in Hc.
  destruct Hc as (m & ->). cbn [fst snd BulkCreateCustomers.customers app].
  apply IH. intros i Hi. apply H. now right.
Qed.

Lemma created_fields (input : list CreateCustomerInput.t) (st : Store) (c : Customer.t) :
  In c (BulkCreateCustomers.customers (snd (BulkCreateCustomers.mutate st input))) ->
  truthy (Customer.name c) = true /\ truthy (Customer.email c) = true /\
  phone_acceptable (Customer.phone c) = true /\
  customer_email_exists st (Customer.email c) = false.
Proof.
  revert st. induction input as [|item rest IH]; intros st H; [contradiction|].
  rewrite mutate_cons, snd_bulk_then in H. cbn [BulkCreateCustomers.customers] in H.
  apply in_app_or in H. destruct H as [H|H].
  - pose proof (turn_cases st item) as Hc. destruct (item_valid st item) eqn:V.
    + rewrite Hc in H. cbn in H. destruct H as [<-|[]]. cbn.
      unfold item_valid, item_fields_ok in V.
      apply andb_true_iff in V. destruct V as [V Ve].
      apply andb_true_iff in V. destruct V as [V Vp].
      apply andb_true_iff in V. destruct V as [Vn Vm].
      apply negb_true_iff in Ve. now repeat split.
    + destruct Hc as (m & Hm). rewrite Hm in H. contradiction.
  - destruct (IH _ H) as (Hn & He & Hp & Hx). repeat split; try assumption.
    destruct (customer_email_exists st (Customer.email c)) eqn:X; [|reflexivity].
    rewrite (turn_email_mono st item _ X) in Hx. discriminate.
Qed.

Lemma all_created (input : list CreateCustomerInput.t) (st : Store) :
  (forall item, In item input -> item_fields_ok item = true) ->
  NoDup (map CreateCustomerInput.email input) ->
  (forall item, In item input ->
     customer_email_exists st (CreateCustomerInput.email item) = false) ->
  BulkCreateCustomers.errors (snd (BulkCreateCustomers.mutate st input)) = [] /\
  map (fun c => (Customer.name c, Customer.email c, Customer.phone c))
    (BulkCreateCustomers.customers (snd (BulkCreateCustomers.mutate st input)))
  = map (fun i => (CreateCustomerInput.name i, CreateCustomerInput.email i,
                   CreateCustomerInput.phone i)) input.
Proof.
  revert st. induction input as [|item rest IH]; intros st F D N; [now split|].
  rewrite mutate_cons, snd_bulk_then.
  pose proof (turn_cases st item) as Hc.
  assert (V : item_valid st item = true).
  { unfold item_valid. rewrite (F item (or_introl eq_refl)), (N item (or_introl eq_refl)).
    reflexivity. }
  rewrite V in Hc. rewrite Hc.
  cbn [fst snd BulkCreateCustomers.customers BulkCreateCustomers.errors app map].
  cbn [map] in D. inversion D as [|? ? Hnotin Hrest]; subst.
  destruct (IH (fst (customer_save st (CreateCustomerInput.name item)
                       (CreateCustomerInput.email item) (CreateCustomerInput.phone item))))
    as [He Hm].
  - intros i Hi. apply F. now right.
  - exact Hrest.
  - intros i Hi. rewrite email_exists_snoc, (N i (or_intror Hi)). cbn [orb].
    apply String.eqb_neq. intros E. apply Hnotin. rewrite E. now apply in_map.
  - split; [exact He|]. cbn [snd customer_save Customer.name Customer.email Customer.phone].
    now rewrite Hm.
Qed.

End BulkCreated.

(** BulkCreateCustomers never saves a customer with a missing name, a
    missing email, or a phone that is present, non-empty and not accepted by
    the validator; nor one whose email was in the store before the call. *)
Theorem BulkCreateCustomers_created_are_checked (st : Store)
    (input : list CreateCustomerInput.t) (c : Customer.t) :
  In c (BulkCreateCustomers.customers (snd (BulkCreateCustomers.mutate st input))) ->
  Customer.name c <> ""%string /\ Customer.email c <> ""%string /\
  (forall ph, Customer.phone c = Some ph -> ph = ""%string \/ is_valid_phone ph = true) /\
  customer_email_exists st (Customer.email c) = false.
Proof.
  intros H. destruct (created_fields _ _ _ H) as (Hn & He & Hp & Hx).
  repeat split; try assumption.
  - intros E. rewrite E in Hn. discriminate.
  - intros E. rewrite E in He. discriminate.
  - intros ph Hph. rewrite Hph in Hp. cbn in Hp.
    destruct ph; [now left|right]. exact Hp.
Qed.

Lemma BulkCreateCustomers_created_are_checked_witness :
  In (Customer.Build 1 "A" "a@x.com" (Some "+15551234567"%string))
    (BulkCreateCustomers.customers
       (snd (BulkCreateCustomers.mutate empty_store [sample_A; sample_nameless]))) /\
  customer_email_exists empty_store "a@x.com" = false.
Proof.
  split; [now left|].
  exact (proj2 (proj2 (proj2
           (@BulkCreateCustomers_created_are_checked empty_store
              [sample_A; sample_nameless]
              (Customer.Build 1 "A" "a@x.com" (Some "+15551234567"%string))
              (or_introl eq_refl))))).
Defined.

(** A batch whose items all have a name, an email and an acceptable phone,
    with emails that differ from one another and from those in the store, is
    created whole: no error is reported, and the created customers carry the
    fields of the items, in the order of the batch. *)
Theorem BulkCreateCustomers_all_created (st : Store)
    (input : list CreateCustomerInput.t) :
  (forall item, In item input -> item_fields_ok item = true) ->
  NoDup (map CreateCustomerInput.email input) ->
  (forall item, In item input ->
     customer_email_exists st (CreateCustomerInput.email item) = false) ->
  BulkCreateCustomers.errors (snd (BulkCreateCustomers.mutate st input)) = [] /\
  map (fun c => (Customer.name c, Customer.email c, Customer.phone c))
    (BulkCreateCustomers.customers (snd (BulkCreateCustomers.mutate st input)))
  = map (fun i => (CreateCustomerInput.name i, CreateCustomerInput.email i,
                   CreateCustomerInput.phone i)) input.
Proof. apply all_created. Qed.

Lemma BulkCreateCustomers_all_created_witness :
  BulkCreateCustomers.errors
    (snd (BulkCreateCustomers.mutate empty_store [sample_A; sample_same_phone])) = [].
Proof.
  refine (proj1 (@BulkCreateCustomers_all_created empty_store
                   [sample_A; sample_same_phone] _ _ _)).
  - intros item [<-|[<-|[]]]; reflexivity.
  - repeat constructor; cbn; intuition discriminate.
  - intros item _. reflexivity.
Defined.

(** Submitting a batch a second time creates nothing: in the store the first
    run leaves, every item of the batch is turned down, the store stays as it
    is, and there is one error for each item. *)
Theorem BulkCreateCustomers_again (st : Store) (input : list CreateCustomerInput.t) :
  let st1 := fst (BulkCreateCustomers.mutate st input) in
  let again := BulkCreateCustomers.mutate st1 input in
  fst again = st1 /\
  BulkCreateCustomers.customers (snd again) = [] /\
  List.length (BulkCreateCustomers.errors (snd again)) = List.length input.
Proof.
  cbv zeta.
  assert (H : forall item, In item input ->
              item_valid (fst (BulkCreateCustomers.mutate st input)) item = false).
  { intros item Hin. unfold item_valid.
    destruct (item_fields_ok item) eqn:F; [|reflexivity]. cbn [andb].
    apply negb_false_iff.
    apply in_split in Hin. destruct Hin as (xs & ys & ->).
    rewrite mutate_app, fst_bulk_then, mutate_cons, fst_bulk_then.
    apply mutate_email_mono. now apply turn_email. }
  destruct (mutate_none_valid input _ H) as [Hs Hc].
  split; [exact Hs|]. split; [exact Hc|].
  destruct (mutate_effect input (fst (BulkCreateCustomers.mutate st input)))
    as (_ & _ & _ & Hn).
  rewrite Hc in Hn. exact Hn.
Qed.

(** The two customer mutations on one item.  An item with a name and an
    email that CreateCustomer accepts is created alike by BulkCreateCustomers
    as a batch of one: same customer, same store.  An item without a phone,
    which BulkCreateCustomers creates if its other fields pass, is turned
    down by CreateCustomer. *)
Theorem CreateCustomer_and_batch_of_one (st : Store) (item : CreateCustomerInput.t) :
  (forall st' r,
     CreateCustomerInput.name item <> ""%string ->
     CreateCustomerInput.email item <> ""%string ->
     CreateCustomer.mutate st item = Ok (st', r) ->
     BulkCreateCustomers.mutate st [item]
     = (st', BulkCreateCustomers.Build [CreateCustomer.customer r] [])) /\
  (CreateCustomerInput.phone item = None -> item_valid st item = true ->
   CreateCustomer.mutate st item = Raise "Invalid phone number format." /\
   exists c, BulkCreateCustomers.mutate st [item]
             = (mkStore (customers st ++ [c]) (products st) (orders st),
                BulkCreateCustomers.Build [c] [])).
Proof.
  split.
  - intros st' r Hn He H. apply CreateCustomer_Ok_inv in H.
    destruct H as (ph & Hph & Hok & Hx & _ & H & _).
    assert (V : item_valid st item = true).
    { unfold item_valid, item_fields_ok, phone_acceptable. rewrite Hph, Hok, Hx.
      destruct (CreateCustomerInput.name item); [contradiction|].
      destruct (CreateCustomerInput.email item); [contradiction|].
      cbn. now rewrite orb_true_r. }
    rewrite mutate_cons. pose proof (turn_cases st item) as Hc. rewrite V in Hc.
    rewrite Hc, Hph, <- H. reflexivity.
  - intros Hph V. split.
    + unfold CreateCustomer.mutate. now rewrite Hph.
    + rewrite mutate_cons. pose proof (turn_cases st item) as Hc. rewrite V in Hc.
      rewrite Hc. eexists. reflexivity.
Qed.

Lemma CreateCustomer_and_batch_of_one_witness :
  BulkCreateCustomers.mutate empty_store [sample_A]
  = (mkStore [Customer.Build 1 "A" "a@x.com" (Some "+15551234567"%string)] [] [],
     BulkCreateCustomers.Build
       [Customer.Build 1 "A" "a@x.com" (Some "+15551234567"%string)] []).
Proof.
  refine (proj1 (CreateCustomer_and_batch_of_one empty_store sample_A)
            (mkStore [Customer.Build 1 "A" "a@x.com" (Some "+15551234567"%string)] [] [])
            (CreateCustomer.Build
               (Customer.Build 1 "A" "a@x.com" (Some "+15551234567"%string))
               "Customer created successfully.") _ _ eq_refl); discriminate.
Defined.

(** ** CreateOrder: when it succeeds, and what the order refers to *)

Section CreateOrderMore.

Lemma existsb_perm (A : Type) (f : A -> bool) (l l' : list A) :
  Permutation l l' -> existsb f l = existsb f l'.
Proof.
  intros P. destruct (existsb f l) eqn:E; symmetry.
  - apply existsb_exists in E. destruct E as (x & Hx & Hf).
    apply existsb_exists. exists x. split; [|exact Hf].
    now apply (Permutation_in x P).
  - destruct (existsb f l') eqn:E'; [|reflexivity].
    apply existsb_exists in E'. destruct E' as (x & Hx & Hf).
    assert (X : existsb f l = true).
    { apply existsb_exists. exists x. split; [|exact Hf].
      now apply (Permutation_in x (Permutation_sym P)). }
    congruence.
Qed.

Lemma products_id_in_perm (st : Store) (ids ids' : list Z) :
  Permutation ids ids' -> products_id_in st ids = products_id_in st ids'.
Proof.
  intros P. unfold products_id_in. apply filter_ext. intros p.
  now apply existsb_perm.
Qed.

(** Under unique keys, a call that succeeds was given distinct ids, and the
    lookup found exactly them. *)
Lemma CreateOrder_Ok_ids (now : Z) (st st' : Store) (input : CreateOrderInput.t)
    (r : CreateOrder.t) :
  store_wf st -> CreateOrder.mutate now st input = Ok (st', r) ->
  NoDup (CreateOrderInput.product_ids input) /\
  (forall i, In i (CreateOrderInput.product_ids input) <->
             In i (map Product.id (products_id_in st (CreateOrderInput.product_ids input)))).
Proof.
  intros Hwf H. apply CreateOrder_Ok_inv in H.
  destruct H as (c & _ & _ & _ & Hlen & _).
  pose proof (products_id_in_NoDup (CreateOrderInput.product_ids input) Hwf) as Hnd.
  pose proof (products_id_in_incl st (CreateOrderInput.product_ids input)) as Hincl.
  assert (Hle : (List.length (CreateOrderInput.product_ids input)
                 <= List.length (map Product.id
                      (products_id_in st (CreateOrderInput.product_ids input))))%nat).
  { rewrite length_map, Hlen. apply le_n. }
  split.
  - exact (NoDup_incl_NoDup Hnd Hle Hincl).
  - intros i. split; [|apply Hincl].
    exact (NoDup_length_incl Hnd Hle Hincl i).
Qed.

Lemma order_refers_mono (st st' : Store) (o : Order.t) :
  incl (customers st) (customers st') -> incl (products st) (products st') ->
  order_refers st o -> order_refers st' o.
Proof.
  intros Hc Hp ((c & Hin & Hid) & Hrows & Hne & Hnd).
  split; [exists c; split; [now apply Hc|exact Hid]|].
  split; [|now split].
  intros pid Hpid. destruct (Hrows pid Hpid) as (p & Hpin & Hpid').
  exists p. split; [now apply Hp|exact Hpid'].
Qed.

Lemma orders_refer_mono (st st' : Store) :
  incl (customers st) (customers st') -> incl (products st) (products st') ->
  orders st' = orders st -> orders_refer st -> orders_refer st'.
Proof.
  intros Hc Hp Ho H o Hin. rewrite Ho in Hin.
  apply (@order_refers_mono st st' o Hc Hp). now apply H.
Qed.

(** The order a call adds refers to what is in the store. *)
Lemma CreateOrder_new_refers (now : Z) (st st' : Store) (input : CreateOrderInput.t)
    (r : CreateOrder.t) :
  store_wf st -> CreateOrder.mutate now st input = Ok (st', r) ->
  order_refers st (CreateOrder.order r).
Proof.
  intros Hwf H. pose proof (CreateOrder_Ok_order _ _ _ H) as [Ho _].
  apply CreateOrder_Ok_inv in H. destruct H as (c & _ & Hc & Hres & _ & _).
  rewrite Ho. unfold order_refers. cbn [Order.customer Order.product].
  split; [|split; [|split]].
  - apply find_some in Hc. destruct Hc as [Hin E]. apply Z.eqb_eq in E. eauto.
  - intros pid Hpid. apply in_map_iff in Hpid. destruct Hpid as (p & E & Hp).
    apply filter_In in Hp. exists p. tauto.
  - intros E. apply map_eq_nil in E. contradiction.
  - now apply products_id_in_NoDup.
Qed.

End CreateOrderMore.

(** With unique keys in the store, CreateOrder succeeds exactly when the
    list of ids is not empty, the customer exists, the ids differ from one
    another and each is the key of a product. *)
Theorem CreateOrder_succeeds_iff (now : Z) (st : Store) (input : CreateOrderInput.t) :
  store_wf st ->
  ((exists st' r, CreateOrder.mutate now st input = Ok (st', r)) <->
   CreateOrderInput.product_ids input <> [] /\
   (exists c, customer_get st (CreateOrderInput.customer_id input) = Some c) /\
   NoDup (CreateOrderInput.product_ids input) /\
   (forall i, In i (CreateOrderInput.product_ids input) ->
      exists p, In p (products st) /\ Product.id p = i)).
Proof.
  intros Hwf. split.
  - intros (st' & r & H). destruct (@CreateOrder_Ok_ids now st st' input r Hwf H) as [Hnd Hin].
    apply CreateOrder_Ok_inv in H. destruct H as (c & Hne & Hc & _).
    split; [exact Hne|]. split; [eauto|]. split; [exact Hnd|].
    intros i Hi. apply Hin in Hi. apply in_map_iff in Hi.
    destruct Hi as (p & E & Hp). apply filter_In in Hp. exists p. tauto.
  - intros (Hne & (c & Hc) & Hnd & Hex).
    exact (@CreateOrder_succeeds now st input c Hwf Hne Hnd Hc Hex).
Qed.

Lemma CreateOrder_succeeds_iff_witness :
  exists st' r, CreateOrder.mutate 77 sample_store sample_order = Ok (st', r).
Proof.
  refine (proj2 (@CreateOrder_succeeds_iff 77 sample_store sample_order _) _).
  - repeat split; repeat constructor; cbn; intuition discriminate.
  - split; [discriminate|]. split; [eexists; reflexivity|].
    split; [repeat constructor; cbn; intuition discriminate|].
    intros i [<-|[<-|[]]].
    + exists (Product.Build 2 "ink" 100 30). split; [right; now left|reflexivity].
    + exists (Product.Build 1 "pen" 250 3). split; [now left|reflexivity].
Defined.

(** With unique keys in the store, the product rows of the order a call
    creates are the requested ids, each once, in the order of the product
    table rather than of the request; and the order refers to a customer and
    to products that are in the store. *)
Theorem CreateOrder_rows (now : Z) (st st' : Store) (input : CreateOrderInput.t)
    (r : CreateOrder.t) :
  store_wf st -> CreateOrder.mutate now st input = Ok (st', r) ->
  Permutation (Order.product (CreateOrder.order r)) (CreateOrderInput.product_ids input) /\
  Order.product (CreateOrder.order r)
  = map Product.id
      (filter (fun p => existsb (Z.eqb (Product.id p)) (CreateOrderInput.product_ids input))
         (products st)) /\
  order_refers st' (CreateOrder.order r).
Proof.
  intros Hwf H. destruct (@CreateOrder_Ok_ids now st st' input r Hwf H) as [Hnd Hin].
  pose proof (@CreateOrder_new_refers now st st' input r Hwf H) as Href.
  destruct (CreateOrder_Ok_order _ _ _ H) as [Ho Hs].
  assert (Hrows : Order.product (CreateOrder.order r)
                  = map Product.id (products_id_in st (CreateOrderInput.product_ids input))).
  { rewrite Ho. reflexivity. }
  split; [|split].
  - rewrite Hrows. apply NoDup_Permutation.
    + now apply products_id_in_NoDup.
    + exact Hnd.
    + intros i. symmetry. apply Hin.
  - exact Hrows.
  - apply (@order_refers_mono st st'); [| |exact Href]; rewrite Hs; apply incl_refl.
Qed.

Lemma CreateOrder_rows_witness :
  exists st' r,
    CreateOrder.mutate 77 sample_store sample_order = Ok (st', r) /\
    Order.product (CreateOrder.order r) = [1%Z; 2%Z].
Proof.
  let v := eval vm_compute in (CreateOrder.mutate 77 sample_store sample_order) in
  match v with
  | Ok (?s, ?r) =>
      exists s, r; split; [reflexivity|];
      refine (proj1 (proj2 (@CreateOrder_rows 77 sample_store s sample_order r _ eq_refl)))
  end.
  repeat split; repeat constructor; cbn; intuition discriminate.
Defined.

(** The order in which the ids are requested does not matter: two requests
    that differ by a rearrangement of their ids have the same outcome, error
    or order, and leave the same store. *)
Theorem CreateOrder_ids_rearranged (now : Z) (st : Store) (customer_id : Z)
    (ids ids' : list Z) (order_date : option Z) :
  Permutation ids ids' ->
  CreateOrder.mutate now st (CreateOrderInput.Build customer_id ids order_date)
  = CreateOrder.mutate now st (CreateOrderInput.Build customer_id ids' order_date).
Proof.
  intros P. unfold CreateOrder.mutate.
  cbn [CreateOrderInput.product_ids CreateOrderInput.customer_id CreateOrderInput.order_date].
  rewrite <- (products_id_in_perm st P), <- (Permutation_length P).
  destruct ids as [|i ids0]; destruct ids' as [|j ids0'].
  - reflexivity.
  - apply Permutation_nil in P. discriminate.
  - apply Permutation_sym, Permutation_nil in P. discriminate.
  - reflexivity.
Qed.

Lemma CreateOrder_ids_rearranged_witness :
  CreateOrder.mutate 77 sample_store (CreateOrderInput.Build 1 [2%Z; 1%Z] None)
  = CreateOrder.mutate 77 sample_store (CreateOrderInput.Build 1 [1%Z; 2%Z] None).
Proof.
  apply CreateOrder_ids_rearranged. apply perm_swap.
Defined.

(** ** What orders refer to, and what products are worth *)

Section ReferenceFacts.

Lemma customer_save_incl (st : Store) (name email : string) (phone : option string) :
  incl (customers st) (customers (fst (customer_save st name email phone))) /\
  products (fst (customer_save st name email phone)) = products st /\
  orders (fst (customer_save st name email phone)) = orders st.
Proof.
  unfold customer_save. cbn [fst customers products orders].
  split; [apply incl_appl, incl_refl|now split].
Qed.

Lemma customer_save_orders_refer (st : Store) (name email : string)
    (phone : option string) :
  orders_refer st -> orders_refer (fst (customer_save st name email phone)).
Proof.
  destruct (customer_save_incl st name email phone) as (Hc & Hp & Ho).
  apply orders_refer_mono; [exact Hc|rewrite Hp; apply incl_refl|exact Ho].
Qed.

End ReferenceFacts.

(** Orders keep referring to what is in the store.  If the keys are unique
    and every order names a customer of the store and, each once, products of
    the store, at least one, then this still holds after any of the four
    mutations; in particular for the order that CreateOrder adds. *)
Theorem references_stay_valid (st : Store) :
  store_wf st -> orders_refer st ->
  (forall input st' r,
     CreateCustomer.mutate st input = Ok (st', r) -> orders_refer st') /\
  (forall input, orders_refer (fst (BulkCreateCustomers.mutate st input))) /\
  (forall column_value input st' r,
     CreateProduct.mutate column_value st input = Done (Ok (st', r)) ->
     orders_refer st') /\
  (forall now input st' r,
     CreateOrder.mutate now st input = Ok (st', r) -> orders_refer st').
Proof.
  intros Hwf Href. split; [|split; [|split]].
  - intros input st' r H. apply CreateCustomer_Ok_inv in H.
    destruct H as (ph & _ & _ & _ & _ & H & _).
    apply (f_equal fst) in H. cbn [fst] in H. rewrite H.
    now apply customer_save_orders_refer.
  - intros input. apply (@mutate_invariant orders_refer); [|exact Href].
    intros s item Hs _. now apply customer_save_orders_refer.
  - intros column_value input st' r H. apply CreateProduct_Ok_inv in H.
    destruct H as (_ & _ & H & _). apply product_save_inv in H.
    destruct H as (units & _ & _ & ->).
    apply (@orders_refer_mono st); [apply incl_refl| |reflexivity|exact Href].
    cbn [products]. apply incl_appl, incl_refl.
  - intros now input st' r H.
    pose proof (@CreateOrder_new_refers now st st' input r Hwf H) as Hnew.
    destruct (CreateOrder_Ok_order _ _ _ H) as [_ Hs].
    intros o Hin. rewrite Hs in Hin. cbn [orders] in Hin.
    apply (@order_refers_mono st st'); try (rewrite Hs; apply incl_refl).
    apply in_app_or in Hin. destruct Hin as [Hin|[<-|[]]]; [now apply Href|exact Hnew].
Qed.

Lemma references_stay_valid_witness :
  exists st' r,
    CreateOrder.mutate 77 sample_store sample_order = Ok (st', r) /\ orders_refer st'.
Proof.
  let v := eval vm_compute in (CreateOrder.mutate 77 sample_store sample_order) in
  match v with
  | Ok (?s, ?r) =>
      exists s, r; split; [reflexivity|];
      refine (proj2 (proj2 (proj2 (@references_stay_valid sample_store _ _)))
                77%Z sample_order s r eq_refl)
  end.
  - repeat split; repeat constructor; cbn; intuition discriminate.
  - intros o [].
Defined.

Section ProductFacts.

Lemma le_0_true (price : QArith_base.Q) :
  QArith_base.Qle price (QArith_base.Qmake 0 1) -> CreateProduct.le_0 price = true.
Proof. intros H. now apply QArith_base.Qle_bool_iff. Qed.

Lemma le_0_false (price : QArith_base.Q) :
  QArith_base.Qlt (QArith_base.Qmake 0 1) price -> CreateProduct.le_0 price = false.
Proof.
  intros H. destruct (CreateProduct.le_0 price) eqn:E; [|reflexivity].
  apply QArith_base.Qle_bool_iff in E.
  exfalso. exact (QArith_base.Qlt_not_le _ _ H E).
Qed.

Lemma stock_or_0_eq (stock : option Z) (s : Z) :
  (stock = Some s) \/ (stock = None /\ s = 0%Z) -> CreateProduct.stock_or_0 stock = s.
Proof.
  intros [->|[-> ->]]; [|reflexivity]. cbn. destruct (Z.eqb_spec s 0); congruence.
Qed.

Lemma products_id_in_fresh (l : list Product.t) (k : Z) :
  (forall p, In p l -> Product.id p <> k) ->
  filter (fun p => existsb (Z.eqb (Product.id p)) [k]) l = [].
Proof.
  intros H. induction l as [|p l IH]; [reflexivity|]. cbn [filter existsb].
  destruct (Z.eqb_spec (Product.id p) k) as [E|_].
  - exfalso. exact (H p (or_introl eq_refl) E).
  - cbn [orb]. apply IH. intros q Hq. apply H. now right.
Qed.

End ProductFacts.

(** CreateProduct checks the price it is given, before any rounding, and
    checks it before the stock: a price that is zero or negative fails with
    the price message whatever the stock; with a positive price, a negative
    stock fails with the stock message; otherwise the product is saved, under
    a key no product has, with its price as the column holds it, and returned
    with the price as given and the confirmation message; a price that does
    not fit the column leaves the call through [save()].  A stock that is
    null counts as 0. *)
Theorem CreateProduct_checks (column_value : QArith_base.Q -> option Z) (st : Store)
    (input : CreateProductInput.t) :
  let name := CreateProductInput.name input in
  let price := CreateProductInput.price input in
  let stock := CreateProductInput.stock input in
  let outcome := CreateProduct.mutate column_value st input in
  (QArith_base.Qle price (QArith_base.Qmake 0 1) ->
   outcome = Done (Raise "Price must be greater than zero.")) /\
  (forall s, QArith_base.Qlt (QArith_base.Qmake 0 1) price ->
     stock = Some s -> (s < 0)%Z ->
     outcome = Done (Raise "Stock cannot be negative.")) /\
  (forall s, QArith_base.Qlt (QArith_base.Qmake 0 1) price ->
     (stock = Some s /\ (0 <= s)%Z) \/ (stock = None /\ s = 0%Z) ->
     (column_value price = None -> outcome = Uncaught) /\
     (forall units, column_value price = Some units ->
        let p := Product.Build (next_pk (map Product.id (products st))) name units s in
        outcome = Done (Ok (mkStore (customers st) (products st ++ [p]) (orders st),
                            CreateProduct.Build p price "Product created successfully.")) /\
        ~ In (Product.id p) (map Product.id (products st)))).
Proof.
  cbv zeta. unfold CreateProduct.mutate. split; [|split].
  - intros Hp. now rewrite (le_0_true Hp).
  - intros s Hp Hs Hneg. rewrite (le_0_false Hp).
    rewrite (@stock_or_0_eq _ s (or_introl Hs)).
    destruct (Z.ltb_spec s 0); [reflexivity|lia].
  - intros s Hp Hs. rewrite (le_0_false Hp).
    assert (E : CreateProduct.stock_or_0 (CreateProductInput.stock input) = s).
    { apply stock_or_0_eq. tauto. }
    assert (0 <= s)%Z by (destruct Hs as [[_ Hs]|[_ ->]]; lia).
    rewrite E. destruct (Z.ltb_spec s 0); [lia|].
    unfold product_save. split.
    + intros ->. reflexivity.
    + intros units ->. split; [reflexivity|apply next_pk_fresh].
Qed.

Lemma CreateProduct_checks_witness :
  CreateProduct.mutate whole_units sample_store
    (CreateProductInput.Build "cap" (QArith_base.Qmake 0 1) (Some (-1)%Z))
  = Done (Raise "Price must be greater than zero.").
Proof.
  refine (proj1 (CreateProduct_checks whole_units sample_store
                   (CreateProductInput.Build "cap" (QArith_base.Qmake 0 1)
                      (Some (-1)%Z))) _).
  apply QArith_base.Qle_refl.
Defined.

(** The price check does not see what is stored.  A product whose price
    passes the check is saved at the value the column gives that price, and
    an order of that one product, for a customer of the store, totals that
    value: when a positive price is rounded to 0 by the column, the product
    is stored at 0, the returned product still shows the price given, and the
    order totals 0. *)
Theorem CreateProduct_rounds_after_check (column_value : QArith_base.Q -> option Z)
    (st : Store) (input : CreateProductInput.t) (units now customer_id : Z)
    (order_date : option Z) :
  QArith_base.Qlt (QArith_base.Qmake 0 1) (CreateProductInput.price input) ->
  (0 <= CreateProduct.stock_or_0 (CreateProductInput.stock input))%Z ->
  column_value (CreateProductInput.price input) = Some units ->
  customer_get st customer_id <> None ->
  exists st' r,
    CreateProduct.mutate column_value st input = Done (Ok (st', r)) /\
    Product.price (CreateProduct.product r) = units /\
    CreateProduct.price r = CreateProductInput.price input /\
    exists st'' o,
      CreateOrder.mutate now st'
        (CreateOrderInput.Build customer_id [Product.id (CreateProduct.product r)]
           order_date)
      = Ok (st'', o) /\
      Order.total_amount (CreateOrder.order o) = units.
Proof.
  intros Hp Hs Hu Hc.
  unfold CreateProduct.mutate, product_save. rewrite (le_0_false Hp), Hu.
  destruct (Z.ltb_spec (CreateProduct.stock_or_0 (CreateProductInput.stock input)) 0);
    [lia|].
  eexists. eexists. split; [reflexivity|].
  cbn [CreateProduct.product CreateProduct.price Product.price Product.id].
  split; [reflexivity|]. split; [reflexivity|].
  unfold CreateOrder.mutate.
  cbn [CreateOrderInput.product_ids CreateOrderInput.customer_id
       CreateOrderInput.order_date].
  unfold customer_get in *. cbn [customers].
  destruct (find (fun c => (Customer.id c =? customer_id)%Z) (customers st)) as [c|];
    [|contradiction].
  unfold products_id_in. cbn [products]. rewrite filter_app.
  rewrite products_id_in_fresh.
  2:{ intros p Hin E. apply (in_map Product.id) in Hin.
      apply next_pk_above in Hin. lia. }
  cbn [filter existsb Product.id app]. rewrite Z.eqb_refl. cbn [orb].
  cbn [List.length Nat.eqb negb map Product.price]. unfold order_save.
  eexists. eexists. split; [reflexivity|].
  cbn [CreateOrder.order Order.total_amount]. unfold CreateOrder.sum. cbn. lia.
Qed.

Lemma CreateProduct_rounds_after_check_witness :
  exists st' r,
    CreateProduct.mutate whole_units sample_store
      (CreateProductInput.Build "gum" (QArith_base.Qmake 1 10) (Some 5%Z))
    = Done (Ok (st', r)) /\
    Product.price (CreateProduct.product r) = 0%Z.
Proof.
  destruct (@CreateProduct_rounds_after_check whole_units sample_store
              (CreateProductInput.Build "gum" (QArith_base.Qmake 1 10) (Some 5%Z))
              0 77 1 None) as (st' & r & H & Hprice & _).
  - reflexivity.
  - cbn. lia.
  - reflexivity.
  - discriminate.
  - exists st', r. split; [exact H|exact Hprice].
Defined.

(** ** The filter sets as conjunctions *)

Section FilterFacts.

Lemma filter_and (A : Type) (f g : A -> bool) (l : list A) :
  filter f (filter g l) = filter (fun x => g x && f x) l.
Proof.
  induction l as [|x l IH]; [reflexivity|]. cbn [filter].
  destruct (g x); cbn [filter andb]; [|exact IH].
  destruct (f x); now rewrite IH.
Qed.

Lemma filter_all (A : Type) (f : A -> bool) (l : list A) :
  (forall x, f x = true) -> filter f l = l.
Proof.
  intros H. induction l as [|x l IH]; [reflexivity|]. cbn [filter].
  now rewrite H, IH.
Qed.

Lemma Filter_filter (A R : Type) (value : option A) (lookup : A -> list R -> list R)
    (c : A -> R -> bool) (qs : list R) :
  (forall v q, lookup v q = filter (c v) q) ->
  django_filters.Filter value lookup qs = filter (fun x => asks value (fun v => c v x)) qs.
Proof.
  intros H. destruct value as [v|]; cbn [django_filters.Filter asks].
  - apply H.
  - symmetry. now apply filter_all.
Qed.

Lemma CharFilter_filter (R : Type) (value : option string)
    (lookup : string -> list R -> list R) (c : string -> R -> bool) (qs : list R) :
  (forall v q, lookup v q = filter (c v) q) ->
  django_filters.CharFilter value lookup qs
  = filter (fun x => asks_str value (fun v => c v x)) qs.
Proof.
  intros H. destruct value as [[|a v]|]; cbn [django_filters.CharFilter asks_str];
    try (symmetry; now apply filter_all).
  apply H.
Qed.

Lemma filter_low_stock_filter (v : bool) (q : list Product.t) :
  ProductFilter.filter_low_stock q v
  = filter (fun p => negb v || (Product.stock p <? 10)%Z) q.
Proof.
  destruct v; cbn [ProductFilter.filter_low_stock negb orb]; [reflexivity|].
  symmetry. now apply filter_all.
Qed.

Lemma Filter_In (A R : Type) (value : option A) (lookup : A -> list R -> list R)
    (c : A -> R -> bool) (qs : list R) (x : R) :
  (forall v q, In x (lookup v q) <-> In x q /\ c v x = true) ->
  In x (django_filters.Filter value lookup qs)
  <-> In x qs /\ asks value (fun v => c v x) = true.
Proof.
  intros H. destruct value as [v|]; cbn [django_filters.Filter asks]; [apply H|tauto].
Qed.

Lemma CharFilter_In (R : Type) (value : option string)
    (lookup : string -> list R -> list R) (c : string -> R -> bool) (qs : list R) (x : R) :
  (forall v q, In x (lookup v q) <-> In x q /\ c v x = true) ->
  In x (django_filters.CharFilter value lookup qs)
  <-> In x qs /\ asks_str value (fun v => c v x) = true.
Proof.
  intros H. destruct value as [[|a v]|]; cbn [django_filters.CharFilter asks_str];
    [tauto|apply H|tauto].
Qed.

Lemma in_join_product_existsb (cond : Z -> bool) (qs : list Order.t) (o : Order.t) :
  In o (OrderFilter.join_product cond qs)
  <-> In o qs /\ existsb cond (Order.product o) = true.
Proof. rewrite in_join_product, existsb_exists. tauto. Qed.

Lemma in_filter_product_id (v : Z) (qs : list Order.t) (o : Order.t) :
  In o (OrderFilter.filter_product_id qs v)
  <-> In o qs /\ ((v =? 0)%Z || existsb (fun pid => (pid =? v)%Z) (Order.product o)) = true.
Proof.
  unfold OrderFilter.filter_product_id. destruct (v =? 0)%Z; cbn [orb]; [tauto|].
  apply in_join_product_existsb.
Qed.

Lemma filter_key_NoDup (v : Z) (l : list Z) :
  NoDup l ->
  filter (fun pid => (pid =? v)%Z) l
  = if existsb (fun pid => (pid =? v)%Z) l then [v] else [].
Proof.
  induction l as [|a l IH]; intros H; [reflexivity|].
  inversion H as [|? ? Ha Hl]; subst. cbn [filter existsb].
  destruct (Z.eqb_spec a v) as [->|Hne]; cbn [orb]; [|now apply IH].
  rewrite (IH Hl).
  destruct (existsb (fun pid => (pid =? v)%Z) l) eqn:E; [|reflexivity].
  apply existsb_exists in E. destruct E as (x & Hx & Ex).
  apply Z.eqb_eq in Ex. subst x. contradiction.
Qed.

Lemma count_occ_const (l : list Z) (a o : Order.t) :
  count_occ order_eq_dec (map (fun _ => a) l) o
  = if order_eq_dec a o then List.length l else 0%nat.
Proof.
  induction l as [|x l IH]; cbn [map count_occ List.length].
  - now destruct (order_eq_dec a o).
  - rewrite IH. now destruct (order_eq_dec a o).
Qed.

Lemma count_occ_join (cond : Z -> bool) (qs : list Order.t) (o : Order.t) :
  count_occ order_eq_dec (OrderFilter.join_product cond qs) o
  = (count_occ order_eq_dec qs o * List.length (filter cond (Order.product o)))%nat.
Proof.
  unfold OrderFilter.join_product.
  induction qs as [|a qs IH]; [reflexivity|].
  cbn [flat_map]. rewrite count_occ_app, IH, count_occ_const. cbn [count_occ].
  destruct (order_eq_dec a o) as [->|Hne]; lia.
Qed.

End FilterFacts.

(** The product filter keeps the products that meet every filter that is
    set, in the order of the queryset and as often as they occur there; a
    filter that is not set, an empty name, and a false [lowStock] ask
    nothing. *)
Theorem ProductFilter_is_conjunction (d : ProductFilter.data) (qs : list Product.t) :
  ProductFilter.filter_queryset d qs = filter (product_matches d) qs.
Proof.
  unfold ProductFilter.filter_queryset, product_matches.
  rewrite (@Filter_filter bool Product.t (ProductFilter.low_stock d) _
             (fun v p => negb v || (Product.stock p <? 10)%Z));
    [|intros; apply filter_low_stock_filter].
  rewrite (@Filter_filter Z Product.t (ProductFilter.stock__lte d) _
             (fun v p => (Product.stock p <=? v)%Z)); [|reflexivity].
  rewrite (@Filter_filter Z Product.t (ProductFilter.stock__gte d) _
             (fun v p => (v <=? Product.stock p)%Z)); [|reflexivity].
  rewrite (@Filter_filter Z Product.t (ProductFilter.price__lte d) _
             (fun v p => (Product.price p <=? v)%Z)); [|reflexivity].
  rewrite (@Filter_filter Z Product.t (ProductFilter.price__gte d) _
             (fun v p => (v <=? Product.price p)%Z)); [|reflexivity].
  rewrite (@CharFilter_filter Product.t (ProductFilter.name d) _
             (fun v p => django_filters.icontains (Product.name p) v)); [|reflexivity].
  rewrite !filter_and. apply filter_ext. intros p. now rewrite !andb_assoc.
Qed.

(** The customer filter keeps the customers that meet every filter that is
    set, in the order of the queryset.  [phoneStartsWith] never removes a
    customer without a phone: with or without it, the same phoneless
    customers come out. *)
Theorem CustomerFilter_is_conjunction (created_at : Customer.t -> Z)
    (d : CustomerFilter.data) (qs : list Customer.t) :
  CustomerFilter.filter_queryset created_at d qs
  = filter (customer_matches created_at d) qs /\
  (forall c, Customer.phone c = None ->
     (In c (CustomerFilter.filter_queryset created_at d qs)
      <-> In c (CustomerFilter.filter_queryset created_at
                  (CustomerFilter.Build (CustomerFilter.name d) (CustomerFilter.email d)
                     (CustomerFilter.created_at__gte d) (CustomerFilter.created_at__lte d)
                     None) qs))).
Proof.
  assert (E : forall d, CustomerFilter.filter_queryset created_at d qs
                        = filter (customer_matches created_at d) qs).
  { clear d. intros d. unfold CustomerFilter.filter_queryset, customer_matches.
    rewrite (@CharFilter_filter Customer.t (CustomerFilter.phone_startswith d) _
               (fun v c => match Customer.phone c with
                           | Some p => String.prefix v p
                           | None => true
                           end)).
    2:{ intros v q. destruct v as [|a v].
        - unfold CustomerFilter.filter_phone_startswith. cbn [truthy].
          symmetry. apply filter_all. intros c. destruct (Customer.phone c) as [p|]; [|reflexivity].
          now destruct p.
        - reflexivity. }
    rewrite (@Filter_filter Z Customer.t (CustomerFilter.created_at__lte d) _
               (fun v c => (created_at c <=? v)%Z)); [|reflexivity].
    rewrite (@Filter_filter Z Customer.t (CustomerFilter.created_at__gte d) _
               (fun v c => (v <=? created_at c)%Z)); [|reflexivity].
    rewrite (@CharFilter_filter Customer.t (CustomerFilter.email d) _
               (fun v c => django_filters.icontains (Customer.email c) v)); [|reflexivity].
    rewrite (@CharFilter_filter Customer.t (CustomerFilter.name d) _
               (fun v c => django_filters.icontains (Customer.name c) v)); [|reflexivity].
    rewrite !filter_and. apply filter_ext. intros c. now rewrite !andb_assoc. }
  split; [apply E|].
  intros c Hc. rewrite !E, !filter_In. unfold customer_matches.
  cbn [CustomerFilter.name CustomerFilter.email CustomerFilter.created_at__gte
       CustomerFilter.created_at__lte CustomerFilter.phone_startswith asks_str].
  rewrite Hc.
  assert (X : asks_str (CustomerFilter.phone_startswith d) (fun _ => true) = true).
  { now destruct (CustomerFilter.phone_startswith d) as [[|a v]|]. }
  rewrite X, !andb_true_r. tauto.
Qed.

(** An order comes out of the order filter exactly when it is in the
    queryset and meets every filter that is set: the bounds on total and
    date, the customer's name, some product row matching the product name,
    and some product row with the product id when that is not 0. *)
Theorem OrderFilter_is_conjunction (st : Store) (d : OrderFilter.data)
    (qs : list Order.t) (o : Order.t) :
  In o (OrderFilter.filter_queryset st d qs)
  <-> In o qs /\ order_matches st d o = true.
Proof.
  unfold OrderFilter.filter_queryset, order_matches.
  rewrite (@Filter_In Z Order.t (OrderFilter.product_id d) _
             (fun v o => (v =? 0)%Z || existsb (fun pid => (pid =? v)%Z) (Order.product o)));
    [|intros; apply in_filter_product_id].
  rewrite (@CharFilter_In Order.t (OrderFilter.product_name d) _
             (fun v o => existsb (OrderFilter.product_name_matches st v) (Order.product o)));
    [|intros; apply in_join_product_existsb].
  rewrite (@CharFilter_In Order.t (OrderFilter.customer_name d) _
             (fun v o => OrderFilter.customer_name_matches st v o));
    [|intros; apply filter_In].
  rewrite (@Filter_In Z Order.t (OrderFilter.order_date__lte d) _
             (fun v o => (Order.order_date o <=? v)%Z)); [|intros; apply filter_In].
  rewrite (@Filter_In Z Order.t (OrderFilter.order_date__gte d) _
             (fun v o => (v <=? Order.order_date o)%Z)); [|intros; apply filter_In].
  rewrite (@Filter_In Z Order.t (OrderFilter.total_amount__lte d) _
             (fun v o => (Order.total_amount o <=? v)%Z)); [|intros; apply filter_In].
  rewrite (@Filter_In Z Order.t (OrderFilter.total_amount__gte d) _
             (fun v o => (v <=? Order.total_amount o)%Z)); [|intros; apply filter_In].
  rewrite !andb_true_iff. tauto.
Qed.

(** With a [productId] that is not 0, on orders whose product rows are
    distinct (as CreateOrder makes them), the filter lists no order more
    often than the queryset does: it keeps, in order, the orders that hold
    the product. *)
Theorem OrderFilter_product_id_once (qs : list Order.t) (v : Z) :
  v <> 0%Z -> (forall o, In o qs -> NoDup (Order.product o)) ->
  OrderFilter.filter_product_id qs v
  = filter (fun o => existsb (fun pid => (pid =? v)%Z) (Order.product o)) qs.
Proof.
  intros Hv Hnd. unfold OrderFilter.filter_product_id, OrderFilter.join_product.
  destruct (Z.eqb_spec v 0); [contradiction|].
  induction qs as [|o qs IH]; [reflexivity|].
  cbn [flat_map filter]. rewrite IH by (intros x Hx; apply Hnd; now right).
  rewrite (filter_key_NoDup v (Hnd o (or_introl eq_refl))).
  now destruct (existsb (fun pid => (pid =? v)%Z) (Order.product o)).
Qed.

Lemma OrderFilter_product_id_once_witness :
  OrderFilter.filter_product_id
    [Order.Build 1 1 350 77 [1%Z; 2%Z]; Order.Build 2 1 100 78 [2%Z]] 1
  = [Order.Build 1 1 350 77 [1%Z; 2%Z]].
Proof.
  refine (@OrderFilter_product_id_once
            [Order.Build 1 1 350 77 [1%Z; 2%Z]; Order.Build 2 1 100 78 [2%Z]] 1 _ _).
  - discriminate.
  - intros o [<-|[<-|[]]]; repeat constructor; cbn; intuition discriminate.
Defined.

(** The product-name filter lists an order once for each of its product
    rows whose product matches the name: an order of the queryset with [n]
    such rows comes out [n] times.  The method [filter_product_name], which
    no filter of the set uses, would yield the same list. *)
Theorem OrderFilter_product_name_repeats (st : Store) (qs : list Order.t)
    (a : ascii) (v' : string) (o : Order.t) :
  let v := String a v' in
  let d := OrderFilter.Build None None None None None (Some v) None in
  OrderFilter.filter_queryset st d qs = OrderFilter.filter_product_name st qs v /\
  count_occ order_eq_dec (OrderFilter.filter_queryset st d qs) o
  = (count_occ order_eq_dec qs o
     * List.length (filter (OrderFilter.product_name_matches st v) (Order.product o)))%nat.
Proof.
  cbv zeta. split; [reflexivity|].
  change (OrderFilter.filter_queryset st _ qs)
    with (OrderFilter.join_product (OrderFilter.product_name_matches st (String a v')) qs).
  apply count_occ_join.
Qed.

(** ** CreateOrder on the ids as they arrive *)

Section CreateOrderRaw.

Variable to_key : string -> option Z.

Lemma keys_of_length (ids : list string) (ks : list Z) :
  CreateOrder.keys_of to_key ids = Some ks -> List.length ks = List.length ids.
Proof.
  revert ks. induction ids as [|i ids IH]; intros ks; cbn [CreateOrder.keys_of].
  - intros H. injection H as <-. reflexivity.
  - destruct (to_key i) as [k|]; [|discriminate].
    destruct (CreateOrder.keys_of to_key ids) as [ks'|]; [|discriminate].
    intros H. injection H as <-. cbn [List.length]. now rewrite (IH ks' eq_refl).
Qed.

(** Once both conversions succeed, the method is the method on the keys. *)
Lemma mutate_raw_keys (now : Z) (st : Store) (input : CreateOrderInput.raw)
    (k : Z) (ks : list Z) :
  to_key (CreateOrderInput.raw_customer_id input) = Some k ->
  CreateOrder.keys_of to_key (CreateOrderInput.raw_product_ids input) = Some ks ->
  CreateOrder.mutate_raw to_key now st input
  = Done (CreateOrder.mutate now st
            (CreateOrderInput.Build k ks (CreateOrderInput.raw_order_date input))).
Proof.
  intros Hk Hks. pose proof (keys_of_length _ Hks) as Hlen.
  unfold CreateOrder.mutate_raw, CreateOrder.mutate.
  cbn [CreateOrderInput.product_ids CreateOrderInput.customer_id
       CreateOrderInput.order_date].
  rewrite Hk, Hks, <- Hlen.
  destruct (CreateOrderInput.raw_product_ids input) as [|i ids];
    destruct ks as [|k0 ks0]; try discriminate; [reflexivity|].
  destruct (customer_get st k) as [customer|]; [|reflexivity].
  destruct (products_id_in st (k0 :: ks0)) as [|p ps]; [reflexivity|].
  destruct (negb (List.length (p :: ps) =? List.length (k0 :: ks0))%nat);
    [reflexivity|].
  unfold order_save. reflexivity.
Qed.

(** A call that returns an order has converted all its ids. *)
Lemma mutate_raw_Ok_keys (now : Z) (st st' : Store) (input : CreateOrderInput.raw)
    (r : CreateOrder.t) :
  CreateOrder.mutate_raw to_key now st input = Done (Ok (st', r)) ->
  exists k ks,
    to_key (CreateOrderInput.raw_customer_id input) = Some k /\
    CreateOrder.keys_of to_key (CreateOrderInput.raw_product_ids input) = Some ks.
Proof.
  unfold CreateOrder.mutate_raw.
  destruct (CreateOrderInput.raw_product_ids input) as [|i ids] eqn:E; [discriminate|].
  destruct (to_key (CreateOrderInput.raw_customer_id input)) as [k|]; [|discriminate].
  destruct (customer_get st k) as [customer|]; [|discriminate].
  destruct (CreateOrder.keys_of to_key (i :: ids)) as [ks|]; [|discriminate].
  intros _. eauto.
Qed.

End CreateOrderRaw.

(** C2, on the ids as the method receives them.  The four failures come in
    the order the claim gives, each with its kind, as long as the ids
    convert to keys: an empty list of ids; a customer key that names no
    customer; no product found; fewer or more products found than ids
    requested, which is the case of a request that repeats the id of an
    existing product.  But a customer id that does not convert, or a product
    id that does not convert once the customer is found, leaves the method
    with the exception of the conversion, which is none of the four: the
    [try] around the customer lookup catches [Customer.DoesNotExist] only. *)
Theorem CreateOrder_raw_failures (to_key : string -> option Z) (now : Z) (st : Store)
    (input : CreateOrderInput.raw) :
  let customer_id := CreateOrderInput.raw_customer_id input in
  let ids := CreateOrderInput.raw_product_ids input in
  let outcome := CreateOrder.mutate_raw to_key now st input in
  (ids = [] ->
   fails outcome ValidationError "At least one product ID must be provided.") /\
  (ids <> [] -> to_key customer_id = None -> outcome = Uncaught) /\
  (forall k, ids <> [] -> to_key customer_id = Some k -> customer_get st k = None ->
   fails outcome NotFoundError "Invalid customer ID.") /\
  (forall k, ids <> [] -> to_key customer_id = Some k -> customer_get st k <> None ->
   CreateOrder.keys_of to_key ids = None -> outcome = Uncaught) /\
  (forall k ks, ids <> [] -> to_key customer_id = Some k -> customer_get st k <> None ->
   CreateOrder.keys_of to_key ids = Some ks ->
   (products_id_in st ks = [] ->
    fails outcome NotFoundError "No products found with the provided IDs.") /\
   (products_id_in st ks <> [] ->
    List.length (products_id_in st ks) <> List.length ids ->
    fails outcome ValidationError "Some product IDs are invalid or do not exist.") /\
   (forall p, store_wf st -> In p (products st) ->
    (2 <= count_occ Z.eq_dec ks (Product.id p))%nat ->
    fails outcome ValidationError "Some product IDs are invalid or do not exist.")).
Proof.
  cbv zeta. unfold fails. split; [|split; [|split; [|split]]].
  - unfold CreateOrder.mutate_raw. intros ->. now split.
  - unfold CreateOrder.mutate_raw. intros Hne ->.
    now destruct (CreateOrderInput.raw_product_ids input).
  - unfold CreateOrder.mutate_raw. intros k Hne -> ->.
    destruct (CreateOrderInput.raw_product_ids input); [contradiction|now split].
  - unfold CreateOrder.mutate_raw. intros k Hne -> Hc ->.
    destruct (CreateOrderInput.raw_product_ids input); [contradiction|].
    now destruct (customer_get st k).
  - intros k ks Hne Hk Hc Hks.
    pose proof (@keys_of_length to_key _ ks Hks) as Hlen.
    rewrite (@mutate_raw_keys to_key now st input k ks Hk Hks).
    assert (Hks_ne : ks <> []).
    { intros ->. destruct (CreateOrderInput.raw_product_ids input);
        [contradiction|discriminate]. }
    pose proof (CreateOrder_failures now st
                  (CreateOrderInput.Build k ks (CreateOrderInput.raw_order_date input)))
      as F.
    cbv zeta in F. unfold raises in F.
    cbn [CreateOrderInput.product_ids CreateOrderInput.customer_id] in F.
    destruct F as (_ & _ & F3 & F4 & F5).
    split; [|split].
    + intros E. destruct (F3 Hks_ne Hc E) as [-> Hkind]. now split.
    + intros E1 E2. rewrite <- Hlen in E2.
      destruct (F4 Hks_ne Hc E1 E2) as [-> Hkind]. now split.
    + intros p Hwf Hp Hocc. destruct (F5 p Hwf Hc Hp Hocc) as [-> Hkind]. now split.
Qed.

Lemma CreateOrder_raw_failures_witness :
  CreateOrder.mutate_raw numeral_key 0 sample_store sample_raw_order_abc = Uncaught /\
  CreateOrder.mutate_raw numeral_key 0 sample_store sample_raw_order_relay = Uncaught /\
  fails (CreateOrder.mutate_raw numeral_key 0 sample_store sample_raw_order_99)
    NotFoundError "Invalid customer ID." /\
  CreateOrder.mutate_raw numeral_key 0 sample_store sample_raw_order_product_abc
  = Uncaught.
Proof.
  split; [|split; [|split]].
  - refine (proj1 (proj2 (CreateOrder_raw_failures numeral_key 0 sample_store
                            sample_raw_order_abc)) _ eq_refl). discriminate.
  - refine (proj1 (proj2 (CreateOrder_raw_failures numeral_key 0 sample_store
                            sample_raw_order_relay)) _ eq_refl). discriminate.
  - refine (proj1 (proj2 (proj2 (CreateOrder_raw_failures numeral_key 0 sample_store
                                   sample_raw_order_99))) 99%Z _ eq_refl eq_refl).
    discriminate.
  - refine (proj1 (proj2 (proj2 (proj2
              (CreateOrder_raw_failures numeral_key 0 sample_store
                 sample_raw_order_product_abc)))) 1%Z _ eq_refl _ eq_refl);
      discriminate.
Defined.

(** A call on the ids as they arrive returns an order exactly when both
    conversions succeed and the method on the keys returns that order, with
    the same store: what holds of the successful calls on keys holds of the
    successful calls of the method. *)
Theorem CreateOrder_raw_succeeds_as_keys (to_key : string -> option Z) (now : Z)
    (st st' : Store) (input : CreateOrderInput.raw) (r : CreateOrder.t) :
  CreateOrder.mutate_raw to_key now st input = Done (Ok (st', r))
  <-> exists k ks,
        to_key (CreateOrderInput.raw_customer_id input) = Some k /\
        CreateOrder.keys_of to_key (CreateOrderInput.raw_product_ids input) = Some ks /\
        CreateOrder.mutate now st
          (CreateOrderInput.Build k ks (CreateOrderInput.raw_order_date input))
        = Ok (st', r).
Proof.
  split.
  - intros H. destruct (@mutate_raw_Ok_keys to_key now st st' input r H) as (k & ks & Hk & Hks).
    exists k, ks. split; [exact Hk|]. split; [exact Hks|].
    rewrite (@mutate_raw_keys to_key now st input k ks Hk Hks) in H. now injection H.
  - intros (k & ks & Hk & Hks & H).
    now rewrite (@mutate_raw_keys to_key now st input k ks Hk Hks), H.
Qed.
